(** * image-signer: signature reconciliation and credential caching

    A shallow embedding of the Go package [signer] (auth.go, the signature
    verification file and the signing file) and of the [sign] command of
    package [cmd], followed by the properties of the batch workflow.

    Calls into cosign, sigstore and the registry are calls into an external
    world: they are the fields of the class [Externals], each one a function
    of the world state.  Every embedded function is a computation in the
    monad [M], which threads the program state and records the external
    calls it makes, in order, together with their answers. *)

From Stdlib Require Import String Ascii ZArith List Bool Lia.
From stdpp Require Import base list strings.
Import ListNotations.

Local Open Scope string_scope.
Local Open Scope list_scope.

(** ** Go errors *)

(** The dynamic types of the error values that reach this program. *)
Inductive errType : Type :=
| T_errorString
| T_wrapError
| T_ErrNoSignaturesFound
| T_ErrNoMatchingAttestations
| T_foreign (name : string).

(** An error value: [errorString] is what [fmt.Errorf] builds without [%w],
    [wrapError] what it builds with [%w] (the formatted message and the
    wrapped error), the two cosign types wrap an inner error, and
    [foreignError] is any other library error and [foreignWrap] one that
    wraps another. *)
Inductive error : Type :=
| errorString (s : string)
| wrapError (msg : string) (err : error)
| ErrNoSignaturesFound (err : error)
| ErrNoMatchingAttestations (err : error)
| foreignError (typ msg : string)
| foreignWrap (typ msg : string) (err : error).

(** [err.Error()]. *)
Fixpoint Error (e : error) : string :=
  match e with
  | errorString s => s
  | wrapError msg _ => msg
  | ErrNoSignaturesFound err => Error err
  | ErrNoMatchingAttestations err => Error err
  | foreignError _ msg => msg
  | foreignWrap _ msg _ => msg
  end.

Definition typeOf (e : error) : errType :=
  match e with
  | errorString _ => T_errorString
  | wrapError _ _ => T_wrapError
  | ErrNoSignaturesFound _ => T_ErrNoSignaturesFound
  | ErrNoMatchingAttestations _ => T_ErrNoMatchingAttestations
  | foreignError typ _ => T_foreign typ
  | foreignWrap typ _ _ => T_foreign typ
  end.

Definition errType_eqb (a b : errType) : bool :=
  match a, b with
  | T_errorString, T_errorString => true
  | T_wrapError, T_wrapError => true
  | T_ErrNoSignaturesFound, T_ErrNoSignaturesFound => true
  | T_ErrNoMatchingAttestations, T_ErrNoMatchingAttestations => true
  | T_foreign x, T_foreign y => String.eqb x y
  | _, _ => false
  end.

(** [errors.As(err, &target)] for a target of dynamic type [t]: the first
    error of the [Unwrap] chain whose type is [t] decides. *)
Fixpoint errors_As (t : errType) (e : error) : bool :=
  if errType_eqb (typeOf e) t then true
  else match e with
       | errorString _ => false
       | wrapError _ err => errors_As t err
       | ErrNoSignaturesFound err => errors_As t err
       | ErrNoMatchingAttestations err => errors_As t err
       | foreignError _ _ => false
       | foreignWrap _ _ err => errors_As t err
       end.

(** [fmt.Errorf(format)] with no wrapping verb. *)
Definition fmt_Errorf (msg : string) : error := errorString msg.

(** [fmt.Errorf(prefix + "%w", err)]. *)
Definition fmt_Errorf_w (prefix : string) (err : error) : error :=
  wrapError (prefix +:+ Error err) err.

(** The line feed that ends the printed lines. *)
Definition nl : string := String (ascii_of_nat 10) EmptyString.

(** ** Data of the libraries, as far as the program reads or writes it *)

(** [name.Reference]: a parsed image reference. *)
Record Reference : Type := mkReference { refName : string }.

(** [root.TrustedMaterial]: an opaque handle. *)
Record TrustedMaterial : Type := mkTrustedMaterial { trustedRootId : nat }.

(** [context.Context]: the program only passes it on. *)
Inductive context : Type := NotifyContext.

Module Identity.
Record t : Type := mk { Issuer : string; SubjectRegExp : string }.
End Identity.

Module CheckOpts.
Record t : Type := mk {
  Identities : list Identity.t;
  NewBundleFormat : bool;
  TrustedMaterial : option TrustedMaterial
}.
End CheckOpts.

(** [oci.Signature]: what [sig.Payload()] returns. *)
Record Signature : Type := mkSignature { Payload : error + list Byte.byte }.

Module SimpleContainerImage.
Record Critical_t : Type := mkCritical { Type_ : string }.
Record t : Type := mk { Critical : Critical_t }.
End SimpleContainerImage.

Module Envelope.
Record t : Type := mk { PayloadType : string; Payload : string }.
End Envelope.

Module Statement.
Record t : Type := mk { Type_ : string; PredicateType : string }.
End Statement.

Inductive TokenGetter : Type :=
| DefaultIDTokenGetter
| PublicInstanceGoogleIDTokenGetter
| PublicInstanceGithubIDTokenGetter
| PublicInstanceMicrosoftIDTokenGetter
| NewDeviceFlowTokenGetterForIssuer (issuer : string).

Record OIDCIDToken : Type := mkOIDCIDToken { RawString : string; Subject : string }.

Module KeyOpts.
Record t : Type := mk {
  FulcioURL : string;
  RekorURL : string;
  OIDCIssuer : string;
  OIDCClientID : string;
  SkipConfirmation : bool;
  TrustedMaterial : option TrustedMaterial;
  IDToken : string;
  FulcioAuthFlow : string;
  NewBundleFormat : bool
}.
Definition set_NewBundleFormat (b : bool) (k : t) : t :=
  mk (FulcioURL k) (RekorURL k) (OIDCIssuer k) (OIDCClientID k)
     (SkipConfirmation k) (TrustedMaterial k) (IDToken k) (FulcioAuthFlow k) b.
End KeyOpts.

Module SignOptions.
Record t : Type := mk {
  Upload : bool;
  TlogUpload : bool;
  Rekor_URL : string;
  Fulcio_URL : string;
  OIDC_Issuer : string;
  OIDC_ClientID : string;
  NewBundleFormat : bool;
  UseSigningConfig : bool
}.
Definition set_NewBundleFormat (b : bool) (o : t) : t :=
  mk (Upload o) (TlogUpload o) (Rekor_URL o) (Fulcio_URL o) (OIDC_Issuer o)
     (OIDC_ClientID o) b (UseSigningConfig o).
Definition set_UseSigningConfig (b : bool) (o : t) : t :=
  mk (Upload o) (TlogUpload o) (Rekor_URL o) (Fulcio_URL o) (OIDC_Issuer o)
     (OIDC_ClientID o) (NewBundleFormat o) b.
End SignOptions.

(** [options.RootOptions]; a [time.Duration] is a number of nanoseconds. *)
Record RootOptions : Type := mkRootOptions { Timeout : Z }.

(** ** The external calls and their record *)

Inductive event : Type :=
| EvTrustedRoot (r : error + TrustedMaterial)
| EvVerifyImageSignatures (ctx : context) (ref : Reference) (co : CheckOpts.t)
    (r : list Signature * bool * option error)
| EvVerifyImageAttestations (ctx : context) (ref : Reference) (co : CheckOpts.t)
    (r : list Signature * bool * option error)
| EvOIDConnect (issuer id secret redirect : string) (tg : TokenGetter)
    (r : error + OIDCIDToken)
| EvSignCmd (ro : RootOptions) (ko : KeyOpts.t) (so : SignOptions.t)
    (imgs : list string) (r : option error)
| EvPrint (s : string).

(** What the program takes from outside these source files: the constants
    of cosign and the package constant [SigstoreOIDCClientID] (declared in a
    file of package [signer] that is not among the sources), the pure
    decoders, and the calls that act on the world [W]. *)
Class Externals (W : Type) : Type := {
  SigstoreOIDCClientID : string;
  DefaultOIDCIssuerURL : string;
  DefaultFulcioURL : string;
  DefaultRekorURL : string;
  CosignSignatureType : string;
  CosignSignPredicateType : string;
  name_ParseReference : string -> error + Reference;
  json_Unmarshal_SimpleContainerImage :
    list Byte.byte -> error + SimpleContainerImage.t;
  json_Unmarshal_Envelope : list Byte.byte -> error + Envelope.t;
  Envelope_DecodeB64Payload : Envelope.t -> error + list Byte.byte;
  json_Unmarshal_Statement : list Byte.byte -> error + Statement.t;
  cosign_TrustedRoot : W -> (error + TrustedMaterial) * W;
  cosign_VerifyImageSignatures :
    context -> Reference -> CheckOpts.t -> W ->
    (list Signature * bool * option error) * W;
  cosign_VerifyImageAttestations :
    context -> Reference -> CheckOpts.t -> W ->
    (list Signature * bool * option error) * W;
  oauthflow_OIDConnect :
    string -> string -> string -> string -> TokenGetter -> W ->
    (error + OIDCIDToken) * W;
  sign_SignCmd :
    RootOptions -> KeyOpts.t -> SignOptions.t -> list string -> W ->
    option error * W
}.

(** ** Program state *)

(** The function value that [sync.OnceValues] returns: the variables its
    function literal captured, and the pair it computed once it has run. *)
Record onceValues : Type := mkOnce {
  once_provider : string;
  once_deviceFlow : bool;
  once_result : option (string * option error)
}.

(** The state: the world, and the [sync.OnceValues] functions allocated so
    far; such a function is named by its position. *)
Record State (W : Type) : Type := mkState {
  world : W;
  onces : list onceValues
}.
Arguments mkState {W} _ _.
Arguments world {W} _.
Arguments onces {W} _.

(** [signatureStatus] of the verification file. *)
Record signatureStatus : Type := mkSignatureStatus {
  LegacySignature : bool;
  BundleSignature : bool
}.

(** The flags of the [sign] command (package variable [signOptions]). *)
Module Flags.
Record t : Type := mk {
  CertificateIdentityRegexp : string;
  CertificateOIDCIssuer : string;
  OIDCProvider : string;
  Timeout : Z;
  DeviceFlow : bool
}.
End Flags.

Section Program.

Context {W : Type} `{Ext : Externals W}.

(** *** The monad *)

Definition M (A : Type) : Type := State W -> A * State W * list event.

Definition ret {A} (a : A) : M A := fun s => (a, s, []).

Definition bind {A B} (m : M A) (k : A -> M B) : M B :=
  fun s =>
    let '(a, s1, ev1) := m s in
    let '(b, s2, ev2) := k a s1 in
    (b, s2, ev1 ++ ev2).

Notation "'do' x <- m ; k" := (bind m (fun x => k))
  (at level 10, x name, m at level 100, k at level 200).

(** An external call: ask the world, record question and answer. *)
Definition extcall {A} (f : W -> A * W) (log : A -> event) : M A :=
  fun s =>
    let '(a, w) := f (world s) in
    (a, mkState w (onces s), [log a]).

Definition TrustedRoot : M (error + TrustedMaterial) :=
  extcall cosign_TrustedRoot EvTrustedRoot.

Definition VerifyImageSignatures ctx ref co :=
  extcall (cosign_VerifyImageSignatures ctx ref co)
          (EvVerifyImageSignatures ctx ref co).

Definition VerifyImageAttestations ctx ref co :=
  extcall (cosign_VerifyImageAttestations ctx ref co)
          (EvVerifyImageAttestations ctx ref co).

Definition OIDConnect issuer id secret redirect tg :=
  extcall (oauthflow_OIDConnect issuer id secret redirect tg)
          (EvOIDConnect issuer id secret redirect tg).

Definition SignCmd ro ko so imgs :=
  extcall (sign_SignCmd ro ko so imgs) (EvSignCmd ro ko so imgs).

(** [fmt.Printf] and [fmt.Println]. *)
Definition Print (line : string) : M unit := fun s => (tt, s, [EvPrint line]).

(** *** auth.go *)

(** The [switch provider] of the function literal; [None] is its
    [default] case. *)
Definition providerTokenGetter (provider : string) : option TokenGetter :=
  if String.eqb provider "" then Some DefaultIDTokenGetter
  else if String.eqb provider "google" then Some PublicInstanceGoogleIDTokenGetter
  else if String.eqb provider "github" then Some PublicInstanceGithubIDTokenGetter
  else if String.eqb provider "microsoft" then Some PublicInstanceMicrosoftIDTokenGetter
  else None.

(** The function literal that [getToken] hands to [sync.OnceValues]. *)
Definition getToken_func (provider : string) (deviceFlow : bool)
  : M (string * option error) :=
  match providerTokenGetter provider with
  | None => ret ("", Some (fmt_Errorf ("unsupported provider: " +:+ provider)))
  | Some tokenGetter =>
      let tokenGetter :=
        if deviceFlow
        then NewDeviceFlowTokenGetterForIssuer DefaultOIDCIssuerURL
        else tokenGetter in
      do r <- OIDConnect DefaultOIDCIssuerURL SigstoreOIDCClientID "" "" tokenGetter;
      match r with
      | inl err => ret ("", Some err)
      | inr tok => ret (RawString tok, None)
      end
  end.

(** [getToken]: every call allocates a new [sync.OnceValues] function and
    returns it. *)
Definition getToken (provider : string) (deviceFlow : bool) : M nat :=
  fun s =>
    (length (onces s),
     mkState (world s) (onces s ++ [mkOnce provider deviceFlow None]),
     []).

(** Calling a [sync.OnceValues] function: the first call runs the
    function literal and stores its pair, later calls return the pair.
    Positions come from [getToken] only, so the last case, a position
    that names no function, does not arise. *)
Definition callOnce (f : nat) : M (string * option error) :=
  fun s =>
    match onces s !! f with
    | Some (mkOnce provider deviceFlow None) =>
        let '(r, s1, ev) := getToken_func provider deviceFlow s in
        (r, mkState (world s1)
              (<[f := mkOnce provider deviceFlow (Some r)]> (onces s1)), ev)
    | Some (mkOnce _ _ (Some r)) => (r, s, [])
    | None => (("", None), s, [])
    end.

(** *** The verification file *)

Definition validateNoSignatureFound (err : error) : bool :=
  errors_As T_ErrNoSignaturesFound err.

Definition validateNoMatchingAttestations (err : error) : bool :=
  errors_As T_ErrNoMatchingAttestations err.

(** The body of the loop of [verifyLegacySignature] for one signature:
    [Some err] is [return false, err], [None] goes on to the next one. *)
Definition legacySignatureCheck (sig : Signature) : option error :=
  match Payload sig with
  | inl err => Some (fmt_Errorf_w "error getting signature payload: " err)
  | inr signaturePayload =>
      match json_Unmarshal_SimpleContainerImage signaturePayload with
      | inl err => Some (fmt_Errorf_w "error unmarshaling signature payload: " err)
      | inr info =>
          let typ := SimpleContainerImage.Type_ (SimpleContainerImage.Critical info) in
          if negb (String.eqb typ CosignSignatureType)
          then Some (fmt_Errorf
                       ("legacy signature found but with unexpected type: " +:+ typ))
          else None
      end
  end.

(** [for _, sig := range signatures] with a [return] in its body. *)
Fixpoint rangeSignatures (body : Signature -> option error)
    (signatures : list Signature) : option error :=
  match signatures with
  | [] => None
  | sig :: rest =>
      match body sig with
      | Some err => Some err
      | None => rangeSignatures body rest
      end
  end.

Definition verifyLegacySignature (ctx : context) (ref : Reference)
    (trustedRoot : TrustedMaterial) (identities : list Identity.t)
  : M (bool * option error) :=
  do r <- VerifyImageSignatures ctx ref
            (CheckOpts.mk identities false (Some trustedRoot));
  let '(signatures, bundleVerified, verifyErr) := r in
  match verifyErr with
  | None =>
      if negb bundleVerified
      then ret (false, Some (fmt_Errorf "legacy signatures found but verification failed"))
      else match rangeSignatures legacySignatureCheck signatures with
           | Some err => ret (false, Some err)
           | None => ret (true, None)
           end
  | Some verifyErr =>
      if validateNoSignatureFound verifyErr
      then ret (false, None)
      else ret (false, Some verifyErr)
  end.

(** The body of the loop of [verifyBundledSignature]. *)
Definition bundledSignatureCheck (sig : Signature) : option error :=
  match Payload sig with
  | inl err => Some (fmt_Errorf_w "error getting signature payload: " err)
  | inr signaturePayload =>
      match json_Unmarshal_Envelope signaturePayload with
      | inl err => Some (fmt_Errorf_w "error unmarshaling signature payload: " err)
      | inr info =>
          match Envelope_DecodeB64Payload info with
          | inl err => Some (fmt_Errorf_w "error decoding signature payload: " err)
          | inr payloadDecoded =>
              match json_Unmarshal_Statement payloadDecoded with
              | inl err =>
                  Some (fmt_Errorf_w "error unmarshaling signature statement: " err)
              | inr statement =>
                  let typ := Statement.PredicateType statement in
                  if negb (String.eqb typ CosignSignPredicateType)
                  then Some (fmt_Errorf
                               ("bundled signature found but with unexpected type: "
                                  +:+ typ))
                  else None
              end
          end
      end
  end.

Definition verifyBundledSignature (ctx : context) (ref : Reference)
    (trustedRoot : TrustedMaterial) (identities : list Identity.t)
  : M (bool * option error) :=
  do r <- VerifyImageAttestations ctx ref
            (CheckOpts.mk identities true (Some trustedRoot));
  let '(signatures, bundleVerified, verifyErr) := r in
  match verifyErr with
  | None =>
      if negb bundleVerified
      then ret (false, Some (fmt_Errorf "bundled signatures found but verification failed"))
      else match rangeSignatures bundledSignatureCheck signatures with
           | Some err => ret (false, Some err)
           | None => ret (true, None)
           end
  | Some verifyErr =>
      if validateNoMatchingAttestations verifyErr
      then ret (false, None)
      else ret (false, Some verifyErr)
  end.

(** [VerifySignature] returns a pointer and an error, exactly one of
    which is nil on every path: a sum. *)
Definition VerifySignature (ctx : context) (image : string)
    (identities : list Identity.t) : M (error + signatureStatus) :=
  match name_ParseReference image with
  | inl err =>
      ret (inl (fmt_Errorf_w
                  ("error parsing image reference for " +:+ image +:+ ": ") err))
  | inr ref =>
      do r <- TrustedRoot;
      match r with
      | inl err => ret (inl (fmt_Errorf_w "error getting trusted roots: " err))
      | inr trustedRoot =>
          do l <- verifyLegacySignature ctx ref trustedRoot identities;
          match l with
          | (_, Some err) =>
              ret (inl (fmt_Errorf_w "error verifying legacy signature: " err))
          | (legacyStatus, None) =>
              do b <- verifyBundledSignature ctx ref trustedRoot identities;
              match b with
              | (_, Some err) =>
                  ret (inl (fmt_Errorf_w "error verifying bundled signature: " err))
              | (bundledStatus, None) =>
                  ret (inr (mkSignatureStatus legacyStatus bundledStatus))
              end
          end
      end
  end.

(** *** The signing file *)

Definition SignImage (image : string) (legacySigned bundleSigned : bool)
    (provider : string) (deviceFlow : bool) (timeout : Z) : M (option error) :=
  do r <- TrustedRoot;
  match r with
  | inl err => ret (Some (fmt_Errorf_w "error getting trusted roots: " err))
  | inr trustedRoot =>
      do f <- getToken provider deviceFlow;
      do t <- callOnce f;
      match t with
      | (_, Some err) => ret (Some (fmt_Errorf_w "error getting OIDC token: " err))
      | (token, None) =>
          let keyOptions :=
            KeyOpts.mk DefaultFulcioURL DefaultRekorURL DefaultOIDCIssuerURL
              SigstoreOIDCClientID true (Some trustedRoot) token "token" false in
          let signingOptions :=
            SignOptions.mk true true DefaultRekorURL DefaultFulcioURL
              DefaultOIDCIssuerURL SigstoreOIDCClientID false false in
          let rootOptions := mkRootOptions timeout in
          do e1 <- (if negb legacySigned
                    then
                      do _ <- Print ("Signing legacy signature for image: "
                                       +:+ image +:+ nl);
                      SignCmd rootOptions keyOptions signingOptions [image]
                    else ret None);
          match e1 with
          | Some err =>
              ret (Some (fmt_Errorf_w
                           ("error signing legacy signature for image "
                              +:+ image +:+ ": ") err))
          | None =>
              if negb bundleSigned
              then
                let keyOptions := KeyOpts.set_NewBundleFormat true keyOptions in
                let signingOptions :=
                  SignOptions.set_UseSigningConfig true
                    (SignOptions.set_NewBundleFormat true signingOptions) in
                do _ <- Print ("Signing bundled signature for image: "
                                 +:+ image +:+ nl);
                do e2 <- SignCmd rootOptions keyOptions signingOptions [image];
                match e2 with
                | Some err =>
                    ret (Some (fmt_Errorf_w
                                 ("error signing bundled signature for image "
                                    +:+ image +:+ ": ") err))
                | None => ret None
                end
              else ret None
          end
      end
  end.

(** *** The sign command *)

Variable signOptions : Flags.t.

(** The body of the loop of [signImages] for one image: [Some err] is
    [return err]; [None] is the end of the body or its [continue]. *)
Definition signImages_body (ctx : context) (image : string) : M (option error) :=
  do _ <- Print ("Processing image: " +:+ image +:+ nl);
  do v <- VerifySignature ctx image
            [Identity.mk (Flags.CertificateOIDCIssuer signOptions)
                         (Flags.CertificateIdentityRegexp signOptions)];
  match v with
  | inl err => ret (Some err)
  | inr signatureInfo =>
      if LegacySignature signatureInfo && BundleSignature signatureInfo
      then
        do _ <- Print ("Image is already signed with both legacy and bundled signatures, skipping signing." +:+ nl);
        ret None
      else
        do e <- SignImage image (LegacySignature signatureInfo)
                  (BundleSignature signatureInfo)
                  (Flags.OIDCProvider signOptions)
                  (Flags.DeviceFlow signOptions)
                  (Flags.Timeout signOptions);
        match e with
        | Some err =>
            ret (Some (fmt_Errorf_w ("failed to sign image " +:+ image +:+ ": ") err))
        | None =>
            do _ <- Print ("Successfully signed image: " +:+ image +:+ nl);
            ret None
        end
  end.

(** [for _, image := range images]. *)
Fixpoint rangeImages (ctx : context) (images : list string) : M (option error) :=
  match images with
  | [] => ret None
  | image :: rest =>
      do e <- signImages_body ctx image;
      match e with
      | Some err => ret (Some err)
      | None => rangeImages ctx rest
      end
  end.

Definition signImages (images : list string) : M (option error) :=
  let ctx := NotifyContext in
  rangeImages ctx images.

End Program.

Arguments fmt_Errorf_w : simpl never.
Arguments fmt_Errorf : simpl never.

(** ** A small world to run the program in

    A registry that remembers, for each image, what the two verification
    queries answer; signing an image stores a good signature of the format
    signed, except for the images listed as failing; the issuer counts the
    tokens it hands out.  It parses and decodes a few real references and
    documents and turns everything else down. *)
Module Sim.

Definition answer : Type := (list Signature * bool * option error)%type.

Record world : Type := mkWorld {
  registry : list (string * (answer * answer));
  failing : list string;
  issued : nat
}.

(** The image references of the small world.  Each one is a registry, a
    repository of two path components and a tag, which
    [name.ParseReference] accepts; the small world turns every other
    string down. *)
Definition imageA : string := "ghcr.io/siderolabs/installer:v1.7.0".
Definition imageB : string := "ghcr.io/siderolabs/kubelet:v1.30.0".
Definition imageC : string := "ghcr.io/siderolabs/flannel:v0.25.1".
Definition imageD : string := "ghcr.io/siderolabs/talosctl:v1.7.0".

Definition knownReferences : list string := [imageA; imageB; imageC; imageD].

Definition parseReference (image : string) : error + Reference :=
  if existsb (String.eqb image) knownReferences
  then inr (mkReference image)
  else inl (foreignError "*name.ErrBadName"
              ("could not parse reference: " +:+ image)).

(** The documents of the small world, written out as JSON text. *)
Definition dq : string := String (ascii_of_nat 34) EmptyString.

Definition quoted (s : string) : string := dq +:+ s +:+ dq.

(** A simple-container-image payload with the type tag [tag]. *)
Definition legacyPayload (tag : string) : string :=
  "{" +:+ quoted "critical" +:+ ":{" +:+ quoted "type" +:+ ":" +:+ quoted tag
      +:+ "}}".

(** An in-toto statement with the predicate type [predicateType]. *)
Definition statementDoc (predicateType : string) : string :=
  "{" +:+ quoted "_type" +:+ ":" +:+ quoted "https://in-toto.io/Statement/v0.1"
      +:+ "," +:+ quoted "predicateType" +:+ ":" +:+ quoted predicateType +:+ "}".

(** A DSSE envelope around the base64 text [payload]. *)
Definition envelopeDoc (payload : string) : string :=
  "{" +:+ quoted "payloadType" +:+ ":" +:+ quoted "application/vnd.in-toto+json"
      +:+ "," +:+ quoted "payload" +:+ ":" +:+ quoted payload +:+ "}".

Definition knownTags : list string :=
  ["cosign container image signature"; "atomic container signature"].

(** The predicate types the small world knows, each with the standard
    base64 encoding of its statement. *)
Definition knownStatements : list (string * string) :=
  [("https://sigstore.dev/cosign/sign/v1",
    "eyJfdHlwZSI6Imh0dHBzOi8vaW4tdG90by5pby9TdGF0ZW1lbnQvdjAuMSIsInByZWRpY2F0ZVR5cGUiOiJodHRwczovL3NpZ3N0b3JlLmRldi9jb3NpZ24vc2lnbi92MSJ9");
   ("https://slsa.dev/provenance/v0.2",
    "eyJfdHlwZSI6Imh0dHBzOi8vaW4tdG90by5pby9TdGF0ZW1lbnQvdjAuMSIsInByZWRpY2F0ZVR5cGUiOiJodHRwczovL3Nsc2EuZGV2L3Byb3ZlbmFuY2UvdjAuMiJ9")].

Definition syntaxError : error :=
  foreignError "*json.SyntaxError" "invalid character looking for beginning of value".

(** The decoders of the small world decode the documents above as the
    real ones do and turn down all other bytes. *)
Definition unmarshalSimpleContainerImage (bs : list Byte.byte)
  : error + SimpleContainerImage.t :=
  match List.find (fun tag => String.eqb (legacyPayload tag) (string_of_list_byte bs))
          knownTags with
  | Some tag => inr (SimpleContainerImage.mk (SimpleContainerImage.mkCritical tag))
  | None => inl syntaxError
  end.

Definition unmarshalEnvelope (bs : list Byte.byte) : error + Envelope.t :=
  match List.find (fun st => String.eqb (envelopeDoc (snd st)) (string_of_list_byte bs))
          knownStatements with
  | Some st => inr (Envelope.mk "application/vnd.in-toto+json" (snd st))
  | None => inl syntaxError
  end.

Definition decodeB64Payload (env : Envelope.t) : error + list Byte.byte :=
  match List.find (fun st => String.eqb (snd st) (Envelope.Payload env))
          knownStatements with
  | Some st => inr (list_byte_of_string (statementDoc (fst st)))
  | None =>
      inl (foreignError "base64.CorruptInputError" "illegal base64 data at input byte 0")
  end.

Definition unmarshalStatement (bs : list Byte.byte) : error + Statement.t :=
  match List.find
          (fun st => String.eqb (statementDoc (fst st)) (string_of_list_byte bs))
          knownStatements with
  | Some st => inr (Statement.mk "https://in-toto.io/Statement/v0.1" (fst st))
  | None => inl syntaxError
  end.

Definition notFoundLegacy : answer :=
  ([], false, Some (ErrNoSignaturesFound (errorString "no signatures found"))).

Definition notFoundBundled : answer :=
  ([], false,
   Some (ErrNoMatchingAttestations (errorString "no matching attestations"))).

(** A legacy signature with the type tag [tag], and a bundled signature
    whose statement is the one encoded by [payload]. *)
Definition legacySignatureOf (tag : string) : Signature :=
  mkSignature (inr (list_byte_of_string (legacyPayload tag))).

Definition bundledSignatureOf (payload : string) : Signature :=
  mkSignature (inr (list_byte_of_string (envelopeDoc payload))).

Definition cosignStatement : string :=
  "eyJfdHlwZSI6Imh0dHBzOi8vaW4tdG90by5pby9TdGF0ZW1lbnQvdjAuMSIsInByZWRpY2F0ZVR5cGUiOiJodHRwczovL3NpZ3N0b3JlLmRldi9jb3NpZ24vc2lnbi92MSJ9".

Definition slsaStatement : string :=
  "eyJfdHlwZSI6Imh0dHBzOi8vaW4tdG90by5pby9TdGF0ZW1lbnQvdjAuMSIsInByZWRpY2F0ZVR5cGUiOiJodHRwczovL3Nsc2EuZGV2L3Byb3ZlbmFuY2UvdjAuMiJ9".

Definition goodLegacy : answer :=
  ([legacySignatureOf "cosign container image signature"], true, None).

Definition goodBundled : answer :=
  ([bundledSignatureOf cosignStatement], true, None).

Fixpoint lookupImage (image : string) (reg : list (string * (answer * answer)))
  : answer * answer :=
  match reg with
  | [] => (notFoundLegacy, notFoundBundled)
  | (i, a) :: rest => if String.eqb i image then a else lookupImage image rest
  end.

Fixpoint store (image : string) (bundle : bool)
    (reg : list (string * (answer * answer))) : list (string * (answer * answer)) :=
  match reg with
  | [] => [(image, if bundle then (notFoundLegacy, goodBundled)
                   else (goodLegacy, notFoundBundled))]
  | (i, (l, b)) :: rest =>
      if String.eqb i image
      then (i, if bundle then (l, goodBundled) else (goodLegacy, b)) :: rest
      else (i, (l, b)) :: store image bundle rest
  end.

Definition signCmd (ko : KeyOpts.t) (imgs : list string) (w : world)
  : option error * world :=
  match imgs with
  | [image] =>
      if existsb (String.eqb image) (failing w)
      then (Some (foreignError "*errors.errorString" "signing failed"), w)
      else (None, mkWorld (store image (KeyOpts.NewBundleFormat ko) (registry w))
                    (failing w) (issued w))
  | _ => (Some (foreignError "*errors.errorString" "one image expected"), w)
  end.

#[global] Instance externals : Externals world := {|
  SigstoreOIDCClientID := "sigstore";
  DefaultOIDCIssuerURL := "https://oauth2.sigstore.dev/auth";
  DefaultFulcioURL := "https://fulcio.sigstore.dev";
  DefaultRekorURL := "https://rekor.sigstore.dev";
  CosignSignatureType := "cosign container image signature";
  CosignSignPredicateType := "https://sigstore.dev/cosign/sign/v1";
  name_ParseReference := parseReference;
  json_Unmarshal_SimpleContainerImage := unmarshalSimpleContainerImage;
  json_Unmarshal_Envelope := unmarshalEnvelope;
  Envelope_DecodeB64Payload := decodeB64Payload;
  json_Unmarshal_Statement := unmarshalStatement;
  cosign_TrustedRoot w := (inr (mkTrustedMaterial 0), w);
  cosign_VerifyImageSignatures _ ref _ w :=
    (fst (lookupImage (refName ref) (registry w)), w);
  cosign_VerifyImageAttestations _ ref _ w :=
    (snd (lookupImage (refName ref) (registry w)), w);
  oauthflow_OIDConnect _ _ _ _ _ w :=
    (inr (mkOIDCIDToken "id-token" "releaser@siderolabs.com"),
     mkWorld (registry w) (failing w) (S (issued w)));
  sign_SignCmd _ ko _ imgs w := signCmd ko imgs w
|}.

Definition flags (provider : string) (deviceFlow : bool) : Flags.t :=
  Flags.mk "@siderolabs\.com$" "https://accounts.google.com" provider
    300000000000 deviceFlow.

Definition googleFlags : Flags.t := flags "google" false.

Definition start (reg : list (string * (answer * answer))) (bad : list string)
  : State world :=
  mkState (mkWorld reg bad 0) [].

(** Registries with one image, [imageA], by what its two queries answer. *)
Definition registryOf (legacy bundled : answer)
  : list (string * (answer * answer)) :=
  [(imageA, (legacy, bundled))].

Definition unverifiedLegacy : answer :=
  ([legacySignatureOf "cosign container image signature"], false, None).

Definition unverifiedBundled : answer :=
  ([bundledSignatureOf cosignStatement], false, None).

Definition mistypedLegacy : answer :=
  ([legacySignatureOf "atomic container signature"], true, None).

Definition mistypedBundled : answer :=
  ([bundledSignatureOf slsaStatement], true, None).

Definition unauthorized : error := foreignError "*transport.Error" "UNAUTHORIZED".

Definition refused : answer := ([], false, Some unauthorized).

Definition emptyVerified : answer := ([], true, None).

(** The batch of the specification: [imageA] has both formats, [imageB]
    lacks the bundled one, signing [imageC] fails, and [imageD] comes
    after. *)
Definition batchRegistry : list (string * (answer * answer)) :=
  [(imageA, (goodLegacy, goodBundled));
   (imageB, (goodLegacy, notFoundBundled))].

Definition batchStart : State world := start batchRegistry [imageC].

Definition batch : list string := [imageA; imageB; imageC; imageD].

(** The run over [imageA] and [imageB], and the turn of [imageC] that
    follows it. *)
Definition batchPrefixRun : option error * State world * list event :=
  Eval vm_compute in signImages googleFlags [imageA; imageB] batchStart.

Definition batchFailingTurn : option error * State world * list event :=
  Eval vm_compute in
    signImages_body googleFlags NotifyContext imageC (snd (fst batchPrefixRun)).

Definition signingFailed : error :=
  fmt_Errorf_w ("failed to sign image " +:+ imageC +:+ ": ")
    (fmt_Errorf_w ("error signing legacy signature for image " +:+ imageC +:+ ": ")
       (foreignError "*errors.errorString" "signing failed")).

(** The run over [imageA] alone, and the run over the whole batch. *)
Definition batchFirstRun : option error * State world * list event :=
  Eval vm_compute in signImages googleFlags [imageA] batchStart.

Definition batchRun : option error * State world * list event :=
  Eval vm_compute in signImages googleFlags batch batchStart.

End Sim.

(** ** Reading the record of a run *)

Definition isSignCmd (e : event) : bool :=
  match e with EvSignCmd _ _ _ _ _ => true | _ => false end.

Definition isOIDConnect (e : event) : bool :=
  match e with EvOIDConnect _ _ _ _ _ _ => true | _ => false end.

(** The signing-backend calls of a run, in order. *)
Definition signCalls (ev : list event) : list event := List.filter isSignCmd ev.

(** The authentication flows of a run, in order. *)
Definition authFlows (ev : list event) : list event := List.filter isOIDConnect ev.

(** ** The schema checks, as the specification words them *)

Section Schema.

Context {W : Type} `{Ext : Externals W}.

(** A legacy signature satisfies its schema: its payload is there, it
    deserializes to a simple-container-image payload, and the type tag of
    that payload is the cosign signature type. *)
Definition legacyWellFormed (sig : Signature) : Prop :=
  exists bs info,
    Payload sig = inr bs
    /\ json_Unmarshal_SimpleContainerImage bs = inr info
    /\ SimpleContainerImage.Type_ (SimpleContainerImage.Critical info)
       = CosignSignatureType.

(** A bundled signature satisfies its schema: its payload is a DSSE
    envelope whose base64-decoded payload is an in-toto statement with the
    cosign-sign predicate type. *)
Definition bundledWellFormed (sig : Signature) : Prop :=
  exists bs env dec st,
    Payload sig = inr bs
    /\ json_Unmarshal_Envelope bs = inr env
    /\ Envelope_DecodeB64Payload env = inr dec
    /\ json_Unmarshal_Statement dec = inr st
    /\ Statement.PredicateType st = CosignSignPredicateType.

(** The errors that report a signature which is there and verified but
    does not satisfy its schema.  The program has no error type for them:
    they are the errors its two loops build. *)
Inductive MalformedSignatureError : error -> Prop :=
| Malformed_payload err :
    MalformedSignatureError (fmt_Errorf_w "error getting signature payload: " err)
| Malformed_unmarshal err :
    MalformedSignatureError (fmt_Errorf_w "error unmarshaling signature payload: " err)
| Malformed_decode err :
    MalformedSignatureError (fmt_Errorf_w "error decoding signature payload: " err)
| Malformed_statement err :
    MalformedSignatureError
      (fmt_Errorf_w "error unmarshaling signature statement: " err)
| Malformed_legacy_type typ :
    typ <> CosignSignatureType ->
    MalformedSignatureError
      (fmt_Errorf ("legacy signature found but with unexpected type: " +:+ typ))
| Malformed_bundled_type typ :
    typ <> CosignSignPredicateType ->
    MalformedSignatureError
      (fmt_Errorf ("bundled signature found but with unexpected type: " +:+ typ)).

(** The evaluation of a format completes without error on two kinds of
    answer: the not-found condition, which gives the flag false, and a
    verified set all of whose signatures satisfy the schema, which gives
    the flag true. *)
Inductive legacyPasses : list Signature * bool * option error -> bool -> Prop :=
| legacy_absent sigs bv err :
    validateNoSignatureFound err = true ->
    legacyPasses (sigs, bv, Some err) false
| legacy_present sigs :
    Forall legacyWellFormed sigs ->
    legacyPasses (sigs, true, None) true.

Inductive bundledPasses : list Signature * bool * option error -> bool -> Prop :=
| bundled_absent sigs bv err :
    validateNoMatchingAttestations err = true ->
    bundledPasses (sigs, bv, Some err) false
| bundled_present sigs :
    Forall bundledWellFormed sigs ->
    bundledPasses (sigs, true, None) true.

End Schema.

(** The options of a signing call as the dispatcher is to build them for a
    trusted root and a token: [bundle] is false for the legacy format and
    true for the bundled one, where it sets the new-bundle-format flag of
    the key and of the signing options and the signing-config opt-in. *)
Definition expectedKeyOpts {W : Type} `{Externals W}
    (tr : TrustedMaterial) (token : string) (bundle : bool) : KeyOpts.t :=
  {| KeyOpts.FulcioURL := DefaultFulcioURL;
     KeyOpts.RekorURL := DefaultRekorURL;
     KeyOpts.OIDCIssuer := DefaultOIDCIssuerURL;
     KeyOpts.OIDCClientID := SigstoreOIDCClientID;
     KeyOpts.SkipConfirmation := true;
     KeyOpts.TrustedMaterial := Some tr;
     KeyOpts.IDToken := token;
     KeyOpts.FulcioAuthFlow := "token";
     KeyOpts.NewBundleFormat := bundle |}.

Definition expectedSignOptions {W : Type} `{Externals W} (bundle : bool)
  : SignOptions.t :=
  {| SignOptions.Upload := true;
     SignOptions.TlogUpload := true;
     SignOptions.Rekor_URL := DefaultRekorURL;
     SignOptions.Fulcio_URL := DefaultFulcioURL;
     SignOptions.OIDC_Issuer := DefaultOIDCIssuerURL;
     SignOptions.OIDC_ClientID := SigstoreOIDCClientID;
     SignOptions.NewBundleFormat := bundle;
     SignOptions.UseSigningConfig := bundle |}.

(** Two signing calls of the small world: the bundled call for [imageB]
    and the failing legacy call for [imageC]. *)
Module SimCalls.

Definition bundledCallOfB : event :=
  EvSignCmd (mkRootOptions 300000000000)
    (expectedKeyOpts (W := Sim.world) (mkTrustedMaterial 0) "id-token" true)
    (expectedSignOptions (W := Sim.world) true) [Sim.imageB] None.

Definition failedCallOfC : event :=
  EvSignCmd (mkRootOptions 300000000000)
    (expectedKeyOpts (W := Sim.world) (mkTrustedMaterial 0) "id-token" false)
    (expectedSignOptions (W := Sim.world) false) [Sim.imageC]
    (Some (foreignError "*errors.errorString" "signing failed")).

End SimCalls.

(** The signing part of [SignImage] as a table: the record it leaves and
    the result it returns, for a trusted root, a token, and the answers
    [e1] and [e2] of the legacy and of the bundled signing call. *)
Definition signingRecord {W : Type} `{Externals W}
    (image : string) (legacySigned bundleSigned : bool) (timeout : Z)
    (tr : TrustedMaterial) (token : string) (e1 e2 : option error)
  : list event * option error :=
  let ro := mkRootOptions timeout in
  let legacy :=
    [EvPrint ("Signing legacy signature for image: " +:+ image +:+ nl);
     EvSignCmd ro (expectedKeyOpts tr token false) (expectedSignOptions false)
       [image] e1] in
  let bundled :=
    [EvPrint ("Signing bundled signature for image: " +:+ image +:+ nl);
     EvSignCmd ro (expectedKeyOpts tr token true) (expectedSignOptions true)
       [image] e2] in
  let legacyError :=
    fmt_Errorf_w ("error signing legacy signature for image " +:+ image +:+ ": ") in
  let bundledError :=
    fmt_Errorf_w ("error signing bundled signature for image " +:+ image +:+ ": ") in
  match legacySigned, bundleSigned with
  | true, true => ([], None)
  | false, true => (legacy, option_map legacyError e1)
  | true, false => (bundled, option_map bundledError e2)
  | false, false =>
      match e1 with
      | Some err => (legacy, Some (legacyError err))
      | None => (legacy ++ bundled, option_map bundledError e2)
      end
  end.

(** The message that [SignImage] puts before a signing error, by the
    format of the call that failed. *)
Definition signingErrorPrefix (bundle : bool) (image : string) : string :=
  (if bundle
   then "error signing bundled signature for image "
   else "error signing legacy signature for image ") +:+ image +:+ ": ".

(** An authentication flow that was run with the device-code token getter. *)
Definition isDeviceFlow (e : event) : bool :=
  match e with
  | EvOIDConnect _ _ _ _ (NewDeviceFlowTokenGetterForIssuer _) _ => true
  | _ => false
  end.

(** The identity constraint that [signImages] hands to every inspection. *)
Definition identitiesOf (signOptions : Flags.t) : list Identity.t :=
  [Identity.mk (Flags.CertificateOIDCIssuer signOptions)
     (Flags.CertificateIdentityRegexp signOptions)].

(** The lines that [signImages] prints. *)
Definition processingEvent (image : string) : event :=
  EvPrint ("Processing image: " +:+ image +:+ nl).

Definition skippingEvent : event :=
  EvPrint ("Image is already signed with both legacy and bundled signatures, skipping signing." +:+ nl).

Definition signedEvent (image : string) : event :=
  EvPrint ("Successfully signed image: " +:+ image +:+ nl).

(** The providers that [getToken] knows. *)
Definition supportedProviders : list string := [""; "google"; "github"; "microsoft"].

(** ** Properties *)

Ltac unfold_calls :=
  unfold TrustedRoot, VerifyImageSignatures, VerifyImageAttestations,
    OIDConnect, SignCmd, Print, extcall, bind, ret in *.

Ltac in_list := simpl; repeat first [left; reflexivity | right].

Ltac invert_pairs :=
  repeat match goal with
    | H : (_, _) = (_, _) |- _ => inversion H; clear H; subst
    end.

Ltac break_run :=
  repeat (simpl in *;
    match goal with
    | H : (_, _) = (_, _) |- _ => inversion H; clear H; subst
    | H : context [match ?x with _ => _ end] |- _ => destruct x eqn:?
    | H : context [if ?x then _ else _] |- _ => destruct x eqn:?
    end).

Ltac in_events :=
  repeat match goal with
    | H : In _ (_ :: _) |- _ => destruct H as [H | H]
    | H : In _ [] |- _ => destruct H
    | H : In _ (_ ++ _) |- _ => apply in_app_or in H; destruct H as [H | H]
    | H : _ = _ \/ _ |- _ => destruct H as [H | H]
    | H : False |- _ => destruct H
    end;
  try discriminate;
  repeat match goal with
    | H : @eq event _ _ |- _ => inversion H; clear H; subst
    end;
  simpl in *; try discriminate.

Section Inspector.

Context {W : Type} `{Ext : Externals W}.

Implicit Types (s : State W) (ev : list event).

(** What one run of [verifyLegacySignature] records: its query, once. *)
Lemma verifyLegacySignature_events ctx ref tr ids s r s' ev :
  verifyLegacySignature ctx ref tr ids s = (r, s', ev) ->
  exists a, ev = [EvVerifyImageSignatures ctx ref
                    (CheckOpts.mk ids false (Some tr)) a]
            /\ onces s' = onces s.
Proof.
  unfold verifyLegacySignature; unfold_calls; intros H.
  break_run; eexists; split; reflexivity.
Qed.

Lemma verifyBundledSignature_events ctx ref tr ids s r s' ev :
  verifyBundledSignature ctx ref tr ids s = (r, s', ev) ->
  exists a, ev = [EvVerifyImageAttestations ctx ref
                    (CheckOpts.mk ids true (Some tr)) a]
            /\ onces s' = onces s.
Proof.
  unfold verifyBundledSignature; unfold_calls; intros H.
  break_run; eexists; split; reflexivity.
Qed.

(** The result of [verifyLegacySignature] when the query finds signatures
    whose bundle verification failed. *)
Lemma verifyLegacySignature_unverified ctx ref tr ids s r s' ev ctx0 ref0 co sigs :
  verifyLegacySignature ctx ref tr ids s = (r, s', ev) ->
  In (EvVerifyImageSignatures ctx0 ref0 co (sigs, false, None)) ev ->
  r = (false, Some (fmt_Errorf "legacy signatures found but verification failed")).
Proof.
  unfold verifyLegacySignature; unfold_calls; intros H Hin.
  break_run; in_events; try congruence.
Qed.

Lemma verifyBundledSignature_unverified ctx ref tr ids s r s' ev ctx0 ref0 co sigs :
  verifyBundledSignature ctx ref tr ids s = (r, s', ev) ->
  In (EvVerifyImageAttestations ctx0 ref0 co (sigs, false, None)) ev ->
  r = (false, Some (fmt_Errorf "bundled signatures found but verification failed")).
Proof.
  unfold verifyBundledSignature; unfold_calls; intros H Hin.
  break_run; in_events; try congruence.
Qed.

(** *** The loop over the signatures *)

Lemma rangeSignatures_None body sigs :
  rangeSignatures body sigs = None <-> Forall (fun sig => body sig = None) sigs.
Proof.
  induction sigs as [| sig rest IH]; simpl.
  - split; auto.
  - destruct (body sig) eqn:Hb.
    + split; [discriminate | intros H; inversion H; congruence].
    + rewrite IH. split; [intros H; constructor; assumption
                         | intros H; inversion H; assumption].
Qed.

Lemma rangeSignatures_Some body sigs err :
  rangeSignatures body sigs = Some err ->
  exists sig, In sig sigs /\ body sig = Some err.
Proof.
  induction sigs as [| sig rest IH]; simpl; [discriminate |].
  destruct (body sig) eqn:Hb; intros H.
  - inversion H; subst. exists sig. auto.
  - destruct (IH H) as [sig' [Hin Hs]]. exists sig'. auto.
Qed.

Lemma legacySignatureCheck_None sig :
  legacySignatureCheck sig = None <-> legacyWellFormed sig.
Proof.
  unfold legacySignatureCheck, legacyWellFormed. split.
  - destruct (Payload sig) as [e | bs]; [discriminate |].
    destruct (json_Unmarshal_SimpleContainerImage bs) as [e | info] eqn:Hu;
      [discriminate |].
    destruct (String.eqb_spec
                (SimpleContainerImage.Type_ (SimpleContainerImage.Critical info))
                CosignSignatureType) as [Heq | Hne]; simpl; [| discriminate].
    intros _. exists bs, info. auto.
  - intros [bs [info [Hp [Hu Ht]]]]. rewrite Hp, Hu, Ht.
    rewrite String.eqb_refl. reflexivity.
Qed.

Lemma legacySignatureCheck_Some sig err :
  legacySignatureCheck sig = Some err -> MalformedSignatureError err.
Proof.
  unfold legacySignatureCheck.
  destruct (Payload sig) as [e | bs].
  - intros H; inversion H; constructor.
  - destruct (json_Unmarshal_SimpleContainerImage bs) as [e | info].
    + intros H; inversion H; constructor.
    + destruct (String.eqb_spec
                  (SimpleContainerImage.Type_ (SimpleContainerImage.Critical info))
                  CosignSignatureType) as [Heq | Hne]; simpl; [discriminate |].
      intros H; inversion H. constructor. assumption.
Qed.

Lemma bundledSignatureCheck_None sig :
  bundledSignatureCheck sig = None <-> bundledWellFormed sig.
Proof.
  unfold bundledSignatureCheck, bundledWellFormed. split.
  - destruct (Payload sig) as [e | bs]; [discriminate |].
    destruct (json_Unmarshal_Envelope bs) as [e | env] eqn:Hu; [discriminate |].
    destruct (Envelope_DecodeB64Payload env) as [e | dec] eqn:Hd; [discriminate |].
    destruct (json_Unmarshal_Statement dec) as [e | st] eqn:Hs; [discriminate |].
    destruct (String.eqb_spec (Statement.PredicateType st) CosignSignPredicateType)
      as [Heq | Hne]; simpl; [| discriminate].
    intros _. exists bs, env, dec, st. repeat split; assumption || reflexivity.
  - intros [bs [env [dec [st [Hp [Hu [Hd [Hs Ht]]]]]]]].
    rewrite Hp, Hu, Hd, Hs, Ht. rewrite String.eqb_refl. reflexivity.
Qed.

Lemma bundledSignatureCheck_Some sig err :
  bundledSignatureCheck sig = Some err -> MalformedSignatureError err.
Proof.
  unfold bundledSignatureCheck.
  destruct (Payload sig) as [e | bs]; [intros H; inversion H; constructor |].
  destruct (json_Unmarshal_Envelope bs) as [e | env];
    [intros H; inversion H; constructor |].
  destruct (Envelope_DecodeB64Payload env) as [e | dec];
    [intros H; inversion H; constructor |].
  destruct (json_Unmarshal_Statement dec) as [e | st];
    [intros H; inversion H; constructor |].
  destruct (String.eqb_spec (Statement.PredicateType st) CosignSignPredicateType)
    as [Heq | Hne]; simpl; [discriminate |].
  intros H; inversion H. constructor. assumption.
Qed.

(** *** One format, by the answer of its query *)

Lemma verifyLegacySignature_verified ctx ref tr ids s r s' ev ctx0 ref0 co sigs :
  verifyLegacySignature ctx ref tr ids s = (r, s', ev) ->
  In (EvVerifyImageSignatures ctx0 ref0 co (sigs, true, None)) ev ->
  r = match rangeSignatures legacySignatureCheck sigs with
      | Some err => (false, Some err)
      | None => (true, None)
      end.
Proof.
  unfold verifyLegacySignature; unfold_calls; intros H Hin.
  destruct (cosign_VerifyImageSignatures _ _ _ _) as [[[l b] [e |]] w].
  - destruct (validateNoSignatureFound e); simpl in *; invert_pairs; in_events.
  - destruct b; simpl in *.
    + destruct (rangeSignatures legacySignatureCheck l) eqn:Hl;
        simpl in *; invert_pairs; in_events; rewrite Hl; reflexivity.
    + invert_pairs; in_events.
Qed.

Lemma verifyBundledSignature_verified ctx ref tr ids s r s' ev ctx0 ref0 co sigs :
  verifyBundledSignature ctx ref tr ids s = (r, s', ev) ->
  In (EvVerifyImageAttestations ctx0 ref0 co (sigs, true, None)) ev ->
  r = match rangeSignatures bundledSignatureCheck sigs with
      | Some err => (false, Some err)
      | None => (true, None)
      end.
Proof.
  unfold verifyBundledSignature; unfold_calls; intros H Hin.
  destruct (cosign_VerifyImageAttestations _ _ _ _) as [[[l b] [e |]] w].
  - destruct (validateNoMatchingAttestations e); simpl in *; invert_pairs; in_events.
  - destruct b; simpl in *.
    + destruct (rangeSignatures bundledSignatureCheck l) eqn:Hl;
        simpl in *; invert_pairs; in_events; rewrite Hl; reflexivity.
    + invert_pairs; in_events.
Qed.

Lemma verifyLegacySignature_notfound ctx ref tr ids s r s' ev ctx0 ref0 co sigs bv err :
  verifyLegacySignature ctx ref tr ids s = (r, s', ev) ->
  In (EvVerifyImageSignatures ctx0 ref0 co (sigs, bv, Some err)) ev ->
  validateNoSignatureFound err = true ->
  r = (false, None).
Proof.
  unfold verifyLegacySignature; unfold_calls; intros H Hin Hv.
  destruct (cosign_VerifyImageSignatures _ _ _ _) as [[[l b] [e |]] w].
  - destruct (validateNoSignatureFound e) eqn:He; simpl in *;
      invert_pairs; in_events; congruence.
  - destruct b; simpl in *;
      [destruct (rangeSignatures legacySignatureCheck l); simpl in * |];
      invert_pairs; in_events.
Qed.

Lemma verifyBundledSignature_notfound ctx ref tr ids s r s' ev ctx0 ref0 co sigs bv err :
  verifyBundledSignature ctx ref tr ids s = (r, s', ev) ->
  In (EvVerifyImageAttestations ctx0 ref0 co (sigs, bv, Some err)) ev ->
  validateNoMatchingAttestations err = true ->
  r = (false, None).
Proof.
  unfold verifyBundledSignature; unfold_calls; intros H Hin Hv.
  destruct (cosign_VerifyImageAttestations _ _ _ _) as [[[l b] [e |]] w].
  - destruct (validateNoMatchingAttestations e) eqn:He; simpl in *;
      invert_pairs; in_events; congruence.
  - destruct b; simpl in *;
      [destruct (rangeSignatures bundledSignatureCheck l); simpl in * |];
      invert_pairs; in_events.
Qed.

(** A format is reported present only on a verified answer all of whose
    signatures pass the loop. *)
Lemma verifyLegacySignature_true ctx ref tr ids s s' ev e :
  verifyLegacySignature ctx ref tr ids s = ((true, e), s', ev) ->
  exists sigs,
    ev = [EvVerifyImageSignatures ctx ref (CheckOpts.mk ids false (Some tr))
            (sigs, true, None)]
    /\ rangeSignatures legacySignatureCheck sigs = None.
Proof.
  unfold verifyLegacySignature; unfold_calls; intros H.
  destruct (cosign_VerifyImageSignatures _ _ _ _) as [[[l b] [e0 |]] w].
  - destruct (validateNoSignatureFound e0); simpl in *; invert_pairs.
  - destruct b; simpl in *.
    + destruct (rangeSignatures legacySignatureCheck l) eqn:Hl;
        simpl in *; invert_pairs. exists l. auto.
    + invert_pairs.
Qed.

Lemma verifyBundledSignature_true ctx ref tr ids s s' ev e :
  verifyBundledSignature ctx ref tr ids s = ((true, e), s', ev) ->
  exists sigs,
    ev = [EvVerifyImageAttestations ctx ref (CheckOpts.mk ids true (Some tr))
            (sigs, true, None)]
    /\ rangeSignatures bundledSignatureCheck sigs = None.
Proof.
  unfold verifyBundledSignature; unfold_calls; intros H.
  destruct (cosign_VerifyImageAttestations _ _ _ _) as [[[l b] [e0 |]] w].
  - destruct (validateNoMatchingAttestations e0); simpl in *; invert_pairs.
  - destruct b; simpl in *.
    + destruct (rangeSignatures bundledSignatureCheck l) eqn:Hl;
        simpl in *; invert_pairs. exists l. auto.
    + invert_pairs.
Qed.

(** How a run of [VerifySignature] goes, by its result. *)
Lemma VerifySignature_inv ctx image ids s r s' ev :
  VerifySignature ctx image ids s = (r, s', ev) ->
  (exists err, name_ParseReference image = inl err
     /\ r = inl (fmt_Errorf_w
                   ("error parsing image reference for " +:+ image +:+ ": ") err)
     /\ ev = [] /\ s' = s)
  \/ (exists ref err w, name_ParseReference image = inr ref
       /\ cosign_TrustedRoot (world s) = (inl err, w)
       /\ r = inl (fmt_Errorf_w "error getting trusted roots: " err)
       /\ ev = [EvTrustedRoot (inl err)] /\ s' = mkState w (onces s))
  \/ (exists ref tr w l s1 ev1, name_ParseReference image = inr ref
       /\ cosign_TrustedRoot (world s) = (inr tr, w)
       /\ verifyLegacySignature ctx ref tr ids (mkState w (onces s)) = (l, s1, ev1)
       /\ ((exists err, snd l = Some err
              /\ r = inl (fmt_Errorf_w "error verifying legacy signature: " err)
              /\ ev = EvTrustedRoot (inr tr) :: ev1 /\ s' = s1)
           \/ (exists b ev2, snd l = None
                /\ verifyBundledSignature ctx ref tr ids s1 = (b, s', ev2)
                /\ ev = EvTrustedRoot (inr tr) :: ev1 ++ ev2
                /\ match snd b with
                   | Some err =>
                       r = inl (fmt_Errorf_w "error verifying bundled signature: " err)
                   | None => r = inr (mkSignatureStatus (fst l) (fst b))
                   end))).
Proof.
  unfold VerifySignature. intros H.
  destruct (name_ParseReference image) as [err | ref] eqn:Hp.
  - unfold ret in H. invert_pairs. left. eauto 10.
  - right. unfold bind at 1 in H. unfold TrustedRoot at 1, extcall at 1 in H.
    destruct (cosign_TrustedRoot (world s)) as [[err | tr] w] eqn:Hr.
    + left. unfold ret in H. invert_pairs. eauto 10.
    + right. unfold bind at 1 in H.
      destruct (verifyLegacySignature ctx ref tr ids (mkState w (onces s)))
        as [[[lb [lerr |]] s1] ev1] eqn:Hl.
      * unfold ret in H. invert_pairs.
        do 6 eexists. do 3 (split; [first [reflexivity | eassumption] |]).
        left. eexists. simpl. rewrite app_nil_r. repeat split; reflexivity.
      * unfold bind at 1 in H.
        destruct (verifyBundledSignature ctx ref tr ids s1)
          as [[[bb [berr |]] s2] ev2] eqn:Hb;
          unfold ret in H; invert_pairs;
          do 6 eexists; do 3 (split; [first [reflexivity | eassumption] |]);
          right; do 2 eexists; simpl; rewrite app_nil_r;
          (split; [reflexivity |]); (split; [eassumption |]);
          split; reflexivity.
Qed.

(** The legacy query of a run of [VerifySignature], and what the run
    returns according to the verdict on that format. *)
Lemma VerifySignature_legacy_query ctx image ids s r s' ev ctx0 ref0 co a :
  VerifySignature ctx image ids s = (r, s', ev) ->
  In (EvVerifyImageSignatures ctx0 ref0 co a) ev ->
  exists ref tr s0 l s1 ev1,
    verifyLegacySignature ctx ref tr ids s0 = (l, s1, ev1)
    /\ In (EvVerifyImageSignatures ctx0 ref0 co a) ev1
    /\ match snd l with
       | Some err => r = inl (fmt_Errorf_w "error verifying legacy signature: " err)
       | None =>
           (exists b, r = inr (mkSignatureStatus (fst l) b))
           \/ (exists err,
                 r = inl (fmt_Errorf_w "error verifying bundled signature: " err))
       end.
Proof.
  intros H Hin.
  destruct (VerifySignature_inv _ _ _ _ _ _ _ H)
    as [[err [_ [_ [Hev _]]]]
       | [[ref [err [w [_ [_ [_ [Hev _]]]]]]]
         | [ref [tr [w [l [s1 [ev1 [_ [_ [Hl Hrest]]]]]]]]]]];
    subst; in_events.
  destruct Hrest as [[err [Hs [Hr [Hev _]]]] | [b [ev2 [Hs [Hb [Hev Hr]]]]]];
    subst; in_events.
  - do 6 eexists. split; [eassumption |]. split; [assumption |].
    rewrite Hs. reflexivity.
  - do 6 eexists. split; [eassumption |]. split; [assumption |].
    rewrite Hs. destruct (snd b); subst; eauto.
  - destruct (verifyBundledSignature_events _ _ _ _ _ _ _ _ Hb) as [a' [Hev2 _]].
    subst ev2. in_events.
Qed.

Lemma VerifySignature_bundled_query ctx image ids s r s' ev ctx0 ref0 co a :
  VerifySignature ctx image ids s = (r, s', ev) ->
  In (EvVerifyImageAttestations ctx0 ref0 co a) ev ->
  exists ref tr s0 b s1 ev2 legacyStatus,
    verifyBundledSignature ctx ref tr ids s0 = (b, s1, ev2)
    /\ In (EvVerifyImageAttestations ctx0 ref0 co a) ev2
    /\ match snd b with
       | Some err => r = inl (fmt_Errorf_w "error verifying bundled signature: " err)
       | None => r = inr (mkSignatureStatus legacyStatus (fst b))
       end.
Proof.
  intros H Hin.
  destruct (VerifySignature_inv _ _ _ _ _ _ _ H)
    as [[err [_ [_ [Hev _]]]]
       | [[ref [err [w [_ [_ [_ [Hev _]]]]]]]
         | [ref [tr [w [l [s1 [ev1 [_ [_ [Hl Hrest]]]]]]]]]]];
    subst; in_events.
  destruct (verifyLegacySignature_events _ _ _ _ _ _ _ _ Hl) as [a' [Hev1 _]].
  destruct Hrest as [[err [Hs [Hr [Hev _]]]] | [b [ev2 [Hs [Hb [Hev Hr]]]]]];
    subst; in_events.
  do 7 eexists. split; [eassumption |]. split; [assumption |].
  destruct (snd b); subst; reflexivity.
Qed.



Lemma legacy_verdict sigs :
  match rangeSignatures legacySignatureCheck sigs with
  | Some err => ~ Forall legacyWellFormed sigs /\ MalformedSignatureError err
  | None => Forall legacyWellFormed sigs
  end.
Proof.
  destruct (rangeSignatures legacySignatureCheck sigs) as [err |] eqn:Hr.
  - destruct (rangeSignatures_Some _ _ _ Hr) as [sig [Hin Hs]]. split.
    + intros Hall. rewrite List.Forall_forall in Hall.
      apply Hall, legacySignatureCheck_None in Hin. congruence.
    + eapply legacySignatureCheck_Some; eassumption.
  - apply rangeSignatures_None in Hr.
    eapply List.Forall_impl; [| exact Hr]. intros sig. apply legacySignatureCheck_None.
Qed.

Lemma bundled_verdict sigs :
  match rangeSignatures bundledSignatureCheck sigs with
  | Some err => ~ Forall bundledWellFormed sigs /\ MalformedSignatureError err
  | None => Forall bundledWellFormed sigs
  end.
Proof.
  destruct (rangeSignatures bundledSignatureCheck sigs) as [err |] eqn:Hr.
  - destruct (rangeSignatures_Some _ _ _ Hr) as [sig [Hin Hs]]. split.
    + intros Hall. rewrite List.Forall_forall in Hall.
      apply Hall, bundledSignatureCheck_None in Hin. congruence.
    + eapply bundledSignatureCheck_Some; eassumption.
  - apply rangeSignatures_None in Hr.
    eapply List.Forall_impl; [| exact Hr]. intros sig. apply bundledSignatureCheck_None.
Qed.


(** *** Further properties of the inspection *)

(** A format is reported absent without error only on the not-found
    condition of its query. *)
Lemma verifyLegacySignature_false ctx ref tr ids s s' ev :
  verifyLegacySignature ctx ref tr ids s = ((false, None), s', ev) ->
  exists sigs bv err,
    ev = [EvVerifyImageSignatures ctx ref (CheckOpts.mk ids false (Some tr))
            (sigs, bv, Some err)]
    /\ validateNoSignatureFound err = true.
Proof.
  unfold verifyLegacySignature; unfold_calls; intros H.
  destruct (cosign_VerifyImageSignatures _ _ _ _) as [[[l b] [e0 |]] w].
  - destruct (validateNoSignatureFound e0) eqn:He; simpl in *; invert_pairs.
    exists l, b, e0. auto.
  - destruct b; simpl in *.
    + destruct (rangeSignatures legacySignatureCheck l); simpl in *; invert_pairs.
    + invert_pairs.
Qed.

Lemma verifyBundledSignature_false ctx ref tr ids s s' ev :
  verifyBundledSignature ctx ref tr ids s = ((false, None), s', ev) ->
  exists sigs bv err,
    ev = [EvVerifyImageAttestations ctx ref (CheckOpts.mk ids true (Some tr))
            (sigs, bv, Some err)]
    /\ validateNoMatchingAttestations err = true.
Proof.
  unfold verifyBundledSignature; unfold_calls; intros H.
  destruct (cosign_VerifyImageAttestations _ _ _ _) as [[[l b] [e0 |]] w].
  - destruct (validateNoMatchingAttestations e0) eqn:He; simpl in *; invert_pairs.
    exists l, b, e0. auto.
  - destruct b; simpl in *.
    + destruct (rangeSignatures bundledSignatureCheck l); simpl in *; invert_pairs.
    + invert_pairs.
Qed.

Lemma verifyLegacySignature_other_error
    ctx ref tr ids s r s' ev ctx0 ref0 co sigs bv err :
  verifyLegacySignature ctx ref tr ids s = (r, s', ev) ->
  In (EvVerifyImageSignatures ctx0 ref0 co (sigs, bv, Some err)) ev ->
  validateNoSignatureFound err = false ->
  r = (false, Some err).
Proof.
  unfold verifyLegacySignature; unfold_calls; intros H Hin Hv.
  destruct (cosign_VerifyImageSignatures _ _ _ _) as [[[l b] [e |]] w].
  - destruct (validateNoSignatureFound e) eqn:He; simpl in *;
      invert_pairs; in_events; congruence.
  - destruct b; simpl in *;
      [destruct (rangeSignatures legacySignatureCheck l); simpl in * |];
      invert_pairs; in_events.
Qed.

Lemma verifyBundledSignature_other_error
    ctx ref tr ids s r s' ev ctx0 ref0 co sigs bv err :
  verifyBundledSignature ctx ref tr ids s = (r, s', ev) ->
  In (EvVerifyImageAttestations ctx0 ref0 co (sigs, bv, Some err)) ev ->
  validateNoMatchingAttestations err = false ->
  r = (false, Some err).
Proof.
  unfold verifyBundledSignature; unfold_calls; intros H Hin Hv.
  destruct (cosign_VerifyImageAttestations _ _ _ _) as [[[l b] [e |]] w].
  - destruct (validateNoMatchingAttestations e) eqn:He; simpl in *;
      invert_pairs; in_events; congruence.
  - destruct b; simpl in *;
      [destruct (rangeSignatures bundledSignatureCheck l); simpl in * |];
      invert_pairs; in_events.
Qed.




(** X5: a status reports a format absent only when the query of that
    format ended in its not-found condition: no other answer of the
    backend is ever turned into "absent". *)
Theorem absent_only_when_not_found :
  forall ctx image ids s st s' ev,
    VerifySignature ctx image ids s = (inr st, s', ev) ->
    (LegacySignature st = false ->
     exists ctx0 ref0 co sigs bv err,
       In (EvVerifyImageSignatures ctx0 ref0 co (sigs, bv, Some err)) ev
       /\ validateNoSignatureFound err = true)
    /\ (BundleSignature st = false ->
        exists ctx0 ref0 co sigs bv err,
          In (EvVerifyImageAttestations ctx0 ref0 co (sigs, bv, Some err)) ev
          /\ validateNoMatchingAttestations err = true).
Proof.
  intros ctx image ids s st s' ev H.
  destruct (VerifySignature_inv _ _ _ _ _ _ _ H)
    as [[err [_ [Hr _]]]
       | [[ref [err [w [_ [_ [Hr _]]]]]]
         | [ref [tr [w [l [s1 [ev1 [_ [_ [Hl Hrest]]]]]]]]]]];
    try discriminate.
  destruct Hrest as [[err [_ [Hr _]]] | [b [ev2 [Hs [Hb [Hev Hr]]]]]];
    try discriminate.
  destruct l as [lb le], b as [bb be]. simpl in *. subst le.
  destruct be; [discriminate |]. inversion Hr; subst; clear Hr. simpl.
  split; intros Hf; subst.
  - destruct (verifyLegacySignature_false _ _ _ _ _ _ _ Hl)
      as [sigs [bv [err [Hev1 Hv]]]].
    subst ev1. do 6 eexists. split; [right; left; reflexivity | exact Hv].
  - destruct (verifyBundledSignature_false _ _ _ _ _ _ _ Hb)
      as [sigs [bv [err [Hev2 Hv]]]].
    subst ev2. do 6 eexists.
    split; [right; apply in_or_app; right; left; reflexivity | exact Hv].
Qed.

(** *** The inspection, by the answers of the backend *)

(** A run of a per-format function is its one query: it moves the world as
    the query does and records the query with its answer. *)
Lemma verifyLegacySignature_on ctx ref tr ids s la w :
  cosign_VerifyImageSignatures ctx ref (CheckOpts.mk ids false (Some tr)) (world s)
  = (la, w) ->
  exists v,
    verifyLegacySignature ctx ref tr ids s
    = (v, mkState w (onces s),
       [EvVerifyImageSignatures ctx ref (CheckOpts.mk ids false (Some tr)) la]).
Proof.
  intros Ha. unfold verifyLegacySignature, bind, VerifyImageSignatures, extcall, ret.
  rewrite Ha. destruct la as [[sigs bv] [err |]].
  - destruct (validateNoSignatureFound err); eexists; reflexivity.
  - destruct bv; simpl.
    + destruct (rangeSignatures legacySignatureCheck sigs); eexists; reflexivity.
    + eexists; reflexivity.
Qed.

Lemma verifyBundledSignature_on ctx ref tr ids s ba w :
  cosign_VerifyImageAttestations ctx ref (CheckOpts.mk ids true (Some tr)) (world s)
  = (ba, w) ->
  exists v,
    verifyBundledSignature ctx ref tr ids s
    = (v, mkState w (onces s),
       [EvVerifyImageAttestations ctx ref (CheckOpts.mk ids true (Some tr)) ba]).
Proof.
  intros Ha. unfold verifyBundledSignature, bind, VerifyImageAttestations, extcall, ret.
  rewrite Ha. destruct ba as [[sigs bv] [err |]].
  - destruct (validateNoMatchingAttestations err); eexists; reflexivity.
  - destruct bv; simpl.
    + destruct (rangeSignatures bundledSignatureCheck sigs); eexists; reflexivity.
    + eexists; reflexivity.
Qed.

(** Pins the result of a per-format run on a given answer with one of the
    lemmas on recorded answers. *)
Ltac pin_legacy Ha lem :=
  let v := fresh "v" in
  let Hrun := fresh "Hrun" in
  destruct (verifyLegacySignature_on _ _ _ _ _ _ _ Ha) as [v Hrun];
  pose proof (lem _ _ _ _ _ _ _ _ _ _ _ _ Hrun (or_introl eq_refl)).

Ltac pin_bundled Ha lem :=
  let v := fresh "v" in
  let Hrun := fresh "Hrun" in
  destruct (verifyBundledSignature_on _ _ _ _ _ _ _ Ha) as [v Hrun];
  pose proof (lem _ _ _ _ _ _ _ _ _ _ _ _ Hrun (or_introl eq_refl)).

Lemma legacy_on_unverified ctx ref tr ids s sigs w :
  cosign_VerifyImageSignatures ctx ref (CheckOpts.mk ids false (Some tr)) (world s)
  = ((sigs, false, None), w) ->
  verifyLegacySignature ctx ref tr ids s
  = ((false, Some (fmt_Errorf "legacy signatures found but verification failed")),
     mkState w (onces s),
     [EvVerifyImageSignatures ctx ref (CheckOpts.mk ids false (Some tr))
        (sigs, false, None)]).
Proof. intros Ha. pin_legacy Ha verifyLegacySignature_unverified. congruence. Qed.

Lemma bundled_on_unverified ctx ref tr ids s sigs w :
  cosign_VerifyImageAttestations ctx ref (CheckOpts.mk ids true (Some tr)) (world s)
  = ((sigs, false, None), w) ->
  verifyBundledSignature ctx ref tr ids s
  = ((false, Some (fmt_Errorf "bundled signatures found but verification failed")),
     mkState w (onces s),
     [EvVerifyImageAttestations ctx ref (CheckOpts.mk ids true (Some tr))
        (sigs, false, None)]).
Proof. intros Ha. pin_bundled Ha verifyBundledSignature_unverified. congruence. Qed.

Lemma legacy_on_verified ctx ref tr ids s sigs w :
  cosign_VerifyImageSignatures ctx ref (CheckOpts.mk ids false (Some tr)) (world s)
  = ((sigs, true, None), w) ->
  verifyLegacySignature ctx ref tr ids s
  = (match rangeSignatures legacySignatureCheck sigs with
     | Some err => (false, Some err)
     | None => (true, None)
     end,
     mkState w (onces s),
     [EvVerifyImageSignatures ctx ref (CheckOpts.mk ids false (Some tr))
        (sigs, true, None)]).
Proof. intros Ha. pin_legacy Ha verifyLegacySignature_verified. congruence. Qed.

Lemma bundled_on_verified ctx ref tr ids s sigs w :
  cosign_VerifyImageAttestations ctx ref (CheckOpts.mk ids true (Some tr)) (world s)
  = ((sigs, true, None), w) ->
  verifyBundledSignature ctx ref tr ids s
  = (match rangeSignatures bundledSignatureCheck sigs with
     | Some err => (false, Some err)
     | None => (true, None)
     end,
     mkState w (onces s),
     [EvVerifyImageAttestations ctx ref (CheckOpts.mk ids true (Some tr))
        (sigs, true, None)]).
Proof. intros Ha. pin_bundled Ha verifyBundledSignature_verified. congruence. Qed.

Lemma legacy_on_error ctx ref tr ids s sigs bv err w :
  cosign_VerifyImageSignatures ctx ref (CheckOpts.mk ids false (Some tr)) (world s)
  = ((sigs, bv, Some err), w) ->
  verifyLegacySignature ctx ref tr ids s
  = ((false, if validateNoSignatureFound err then None else Some err),
     mkState w (onces s),
     [EvVerifyImageSignatures ctx ref (CheckOpts.mk ids false (Some tr))
        (sigs, bv, Some err)]).
Proof.
  intros Ha. destruct (validateNoSignatureFound err) eqn:Hv.
  - destruct (verifyLegacySignature_on _ _ _ _ _ _ _ Ha) as [v Hrun].
    rewrite Hrun.
    rewrite (verifyLegacySignature_notfound _ _ _ _ _ _ _ _ _ _ _ _ _ _ Hrun (or_introl eq_refl) Hv).
    reflexivity.
  - destruct (verifyLegacySignature_on _ _ _ _ _ _ _ Ha) as [v Hrun].
    rewrite Hrun.
    rewrite (verifyLegacySignature_other_error _ _ _ _ _ _ _ _ _ _ _ _ _ _ Hrun (or_introl eq_refl) Hv).
    reflexivity.
Qed.

Lemma bundled_on_error ctx ref tr ids s sigs bv err w :
  cosign_VerifyImageAttestations ctx ref (CheckOpts.mk ids true (Some tr)) (world s)
  = ((sigs, bv, Some err), w) ->
  verifyBundledSignature ctx ref tr ids s
  = ((false, if validateNoMatchingAttestations err then None else Some err),
     mkState w (onces s),
     [EvVerifyImageAttestations ctx ref (CheckOpts.mk ids true (Some tr))
        (sigs, bv, Some err)]).
Proof.
  intros Ha. destruct (validateNoMatchingAttestations err) eqn:Hv.
  - destruct (verifyBundledSignature_on _ _ _ _ _ _ _ Ha) as [v Hrun].
    rewrite Hrun.
    rewrite (verifyBundledSignature_notfound _ _ _ _ _ _ _ _ _ _ _ _ _ _ Hrun (or_introl eq_refl) Hv).
    reflexivity.
  - destruct (verifyBundledSignature_on _ _ _ _ _ _ _ Ha) as [v Hrun].
    rewrite Hrun.
    rewrite (verifyBundledSignature_other_error _ _ _ _ _ _ _ _ _ _ _ _ _ _ Hrun (or_introl eq_refl) Hv).
    reflexivity.
Qed.

(** A format passes when, and only when, its function returns no error;
    the flag it returns is the one of [legacyPasses] or [bundledPasses]. *)
Lemma legacyPasses_run ctx ref tr ids s la w flag :
  cosign_VerifyImageSignatures ctx ref (CheckOpts.mk ids false (Some tr)) (world s)
  = (la, w) ->
  legacyPasses la flag ->
  verifyLegacySignature ctx ref tr ids s
  = ((flag, None), mkState w (onces s),
     [EvVerifyImageSignatures ctx ref (CheckOpts.mk ids false (Some tr)) la]).
Proof.
  intros Ha Hp. destruct Hp as [sigs bv err Hv | sigs Hall].
  - rewrite (legacy_on_error _ _ _ _ _ _ _ _ _ Ha), Hv. reflexivity.
  - rewrite (legacy_on_verified _ _ _ _ _ _ _ Ha).
    pose proof (legacy_verdict sigs) as Hd.
    destruct (rangeSignatures legacySignatureCheck sigs); [| reflexivity].
    destruct Hd as [Hn _]. contradiction.
Qed.

Lemma bundledPasses_run ctx ref tr ids s ba w flag :
  cosign_VerifyImageAttestations ctx ref (CheckOpts.mk ids true (Some tr)) (world s)
  = (ba, w) ->
  bundledPasses ba flag ->
  verifyBundledSignature ctx ref tr ids s
  = ((flag, None), mkState w (onces s),
     [EvVerifyImageAttestations ctx ref (CheckOpts.mk ids true (Some tr)) ba]).
Proof.
  intros Ha Hp. destruct Hp as [sigs bv err Hv | sigs Hall].
  - rewrite (bundled_on_error _ _ _ _ _ _ _ _ _ Ha), Hv. reflexivity.
  - rewrite (bundled_on_verified _ _ _ _ _ _ _ Ha).
    pose proof (bundled_verdict sigs) as Hd.
    destruct (rangeSignatures bundledSignatureCheck sigs); [| reflexivity].
    destruct Hd as [Hn _]. contradiction.
Qed.

Lemma legacy_run_passes ctx ref tr ids s la w flag s' ev :
  cosign_VerifyImageSignatures ctx ref (CheckOpts.mk ids false (Some tr)) (world s)
  = (la, w) ->
  verifyLegacySignature ctx ref tr ids s = ((flag, None), s', ev) ->
  legacyPasses la flag.
Proof.
  intros Ha Hrun. destruct la as [[sigs bv] [err |]].
  - rewrite (legacy_on_error _ _ _ _ _ _ _ _ _ Ha) in Hrun.
    destruct (validateNoSignatureFound err) eqn:Hv; inversion Hrun; subst.
    constructor. exact Hv.
  - destruct bv.
    + rewrite (legacy_on_verified _ _ _ _ _ _ _ Ha) in Hrun.
      pose proof (legacy_verdict sigs) as Hd.
      destruct (rangeSignatures legacySignatureCheck sigs); inversion Hrun; subst.
      constructor. exact Hd.
    + rewrite (legacy_on_unverified _ _ _ _ _ _ _ Ha) in Hrun. inversion Hrun.
Qed.

Lemma bundled_run_passes ctx ref tr ids s ba w flag s' ev :
  cosign_VerifyImageAttestations ctx ref (CheckOpts.mk ids true (Some tr)) (world s)
  = (ba, w) ->
  verifyBundledSignature ctx ref tr ids s = ((flag, None), s', ev) ->
  bundledPasses ba flag.
Proof.
  intros Ha Hrun. destruct ba as [[sigs bv] [err |]].
  - rewrite (bundled_on_error _ _ _ _ _ _ _ _ _ Ha) in Hrun.
    destruct (validateNoMatchingAttestations err) eqn:Hv; inversion Hrun; subst.
    constructor. exact Hv.
  - destruct bv.
    + rewrite (bundled_on_verified _ _ _ _ _ _ _ Ha) in Hrun.
      pose proof (bundled_verdict sigs) as Hd.
      destruct (rangeSignatures bundledSignatureCheck sigs); inversion Hrun; subst.
      constructor. exact Hd.
    + rewrite (bundled_on_unverified _ _ _ _ _ _ _ Ha) in Hrun. inversion Hrun.
Qed.

Lemma legacy_error_fails ctx ref tr ids s la w flag err s' ev :
  cosign_VerifyImageSignatures ctx ref (CheckOpts.mk ids false (Some tr)) (world s)
  = (la, w) ->
  verifyLegacySignature ctx ref tr ids s = ((flag, Some err), s', ev) ->
  ~ exists f, legacyPasses la f.
Proof.
  intros Ha Hrun [f Hp].
  rewrite (legacyPasses_run _ _ _ _ _ _ _ _ Ha Hp) in Hrun. inversion Hrun.
Qed.

Lemma bundled_error_fails ctx ref tr ids s ba w flag err s' ev :
  cosign_VerifyImageAttestations ctx ref (CheckOpts.mk ids true (Some tr)) (world s)
  = (ba, w) ->
  verifyBundledSignature ctx ref tr ids s = ((flag, Some err), s', ev) ->
  ~ exists f, bundledPasses ba f.
Proof.
  intros Ha Hrun [f Hp].
  rewrite (bundledPasses_run _ _ _ _ _ _ _ _ Ha Hp) in Hrun. inversion Hrun.
Qed.

(** [VerifySignature] after the reference has parsed and the trusted
    root has been fetched: it ends with the error of the legacy format, or
    goes on to the bundled format, which then decides. *)
Lemma VerifySignature_legacy_fails ctx image ids s ref tr w0 flag err s1 ev1 :
  name_ParseReference image = inr ref ->
  cosign_TrustedRoot (world s) = (inr tr, w0) ->
  verifyLegacySignature ctx ref tr ids (mkState w0 (onces s))
  = ((flag, Some err), s1, ev1) ->
  VerifySignature ctx image ids s
  = (inl (fmt_Errorf_w "error verifying legacy signature: " err), s1,
     EvTrustedRoot (inr tr) :: ev1).
Proof.
  intros Hp Hr Hl. unfold VerifySignature. rewrite Hp.
  unfold bind at 1. unfold TrustedRoot at 1, extcall at 1. rewrite Hr.
  unfold bind at 1. rewrite Hl. unfold ret. simpl. rewrite app_nil_r. reflexivity.
Qed.

Lemma VerifySignature_bundled_decides ctx image ids s ref tr w0 lflag s1 ev1
    bflag berr s2 ev2 :
  name_ParseReference image = inr ref ->
  cosign_TrustedRoot (world s) = (inr tr, w0) ->
  verifyLegacySignature ctx ref tr ids (mkState w0 (onces s))
  = ((lflag, None), s1, ev1) ->
  verifyBundledSignature ctx ref tr ids s1 = ((bflag, berr), s2, ev2) ->
  VerifySignature ctx image ids s
  = (match berr with
     | Some err => inl (fmt_Errorf_w "error verifying bundled signature: " err)
     | None => inr (mkSignatureStatus lflag bflag)
     end, s2, EvTrustedRoot (inr tr) :: ev1 ++ ev2).
Proof.
  intros Hp Hr Hl Hb. unfold VerifySignature. rewrite Hp.
  unfold bind at 1. unfold TrustedRoot at 1, extcall at 1. rewrite Hr.
  unfold bind at 1. rewrite Hl. unfold bind at 1. rewrite Hb.
  destruct berr; unfold ret; simpl; rewrite app_nil_r; reflexivity.
Qed.

(** C2: when the query of a format succeeds and reports signatures whose
    bundle-level verification flag is false, the per-format function
    returns the "found but verification failed" error and
    [VerifySignature] returns that error, wrapped with the format, and no
    signature status: found-but-unverified is never reported as absent.
    For the legacy format this holds whatever the bundled query would
    answer, which is then not asked; for the bundled format it holds
    whenever the legacy format has passed. *)
Theorem found_but_unverified_fails :
  forall ctx image ids s ref tr w0,
    name_ParseReference image = inr ref ->
    cosign_TrustedRoot (world s) = (inr tr, w0) ->
    (forall sigs w1,
        cosign_VerifyImageSignatures ctx ref (CheckOpts.mk ids false (Some tr)) w0
        = ((sigs, false, None), w1) ->
        let failed := fmt_Errorf "legacy signatures found but verification failed" in
        let query :=
          EvVerifyImageSignatures ctx ref (CheckOpts.mk ids false (Some tr))
            (sigs, false, None) in
        verifyLegacySignature ctx ref tr ids (mkState w0 (onces s))
        = ((false, Some failed), mkState w1 (onces s), [query])
        /\ VerifySignature ctx image ids s
           = (inl (fmt_Errorf_w "error verifying legacy signature: " failed),
              mkState w1 (onces s), [EvTrustedRoot (inr tr); query]))
    /\ (forall la legacyStatus w1 sigs w2,
           cosign_VerifyImageSignatures ctx ref (CheckOpts.mk ids false (Some tr)) w0
           = (la, w1) ->
           legacyPasses la legacyStatus ->
           cosign_VerifyImageAttestations ctx ref (CheckOpts.mk ids true (Some tr)) w1
           = ((sigs, false, None), w2) ->
           let failed :=
             fmt_Errorf "bundled signatures found but verification failed" in
           let query :=
             EvVerifyImageAttestations ctx ref (CheckOpts.mk ids true (Some tr))
               (sigs, false, None) in
           verifyBundledSignature ctx ref tr ids (mkState w1 (onces s))
           = ((false, Some failed), mkState w2 (onces s), [query])
           /\ VerifySignature ctx image ids s
              = (inl (fmt_Errorf_w "error verifying bundled signature: " failed),
                 mkState w2 (onces s),
                 [EvTrustedRoot (inr tr);
                  EvVerifyImageSignatures ctx ref (CheckOpts.mk ids false (Some tr)) la;
                  query])).
Proof.
  intros ctx image ids s ref tr w0 Hp Hr. split.
  - intros sigs w1 Ha failed query.
    pose proof (legacy_on_unverified ctx ref tr ids (mkState w0 (onces s)) sigs w1 Ha)
      as Hl.
    split; [exact Hl |].
    rewrite (VerifySignature_legacy_fails _ _ _ _ _ _ _ _ _ _ _ Hp Hr Hl).
    reflexivity.
  - intros la legacyStatus w1 sigs w2 Ha Hpass Hb failed query.
    pose proof (legacyPasses_run ctx ref tr ids (mkState w0 (onces s)) la w1 _ Ha Hpass)
      as Hl.
    pose proof (bundled_on_unverified ctx ref tr ids (mkState w1 (onces s)) sigs w2 Hb)
      as Hbr.
    split; [exact Hbr |].
    rewrite (VerifySignature_bundled_decides _ _ _ _ _ _ _ _ _ _ _ _ _ _ Hp Hr Hl Hbr).
    reflexivity.
Qed.

(** C3: on a verified signature set (query without error, bundle
    verification flag true), if some returned signature does not satisfy
    its schema (its payload does not deserialize, or its type tag is not
    the expected constant), the per-format function returns a malformed
    signature error and [VerifySignature] returns that error wrapped with
    the format, not a status; if every signature satisfies the schema the
    per-format function reports the format present.  A status reports a
    format present only if the backend answered the query of that format
    with a verified set all of whose signatures satisfy the schema. *)
Theorem malformed_signature_fails :
  forall ctx image ids s ref tr w0,
    name_ParseReference image = inr ref ->
    cosign_TrustedRoot (world s) = (inr tr, w0) ->
    (forall sigs w1,
        cosign_VerifyImageSignatures ctx ref (CheckOpts.mk ids false (Some tr)) w0
        = ((sigs, true, None), w1) ->
        let query :=
          EvVerifyImageSignatures ctx ref (CheckOpts.mk ids false (Some tr))
            (sigs, true, None) in
        (Forall legacyWellFormed sigs ->
         verifyLegacySignature ctx ref tr ids (mkState w0 (onces s))
         = ((true, None), mkState w1 (onces s), [query]))
        /\ (~ Forall legacyWellFormed sigs ->
            exists err,
              MalformedSignatureError err
              /\ verifyLegacySignature ctx ref tr ids (mkState w0 (onces s))
                 = ((false, Some err), mkState w1 (onces s), [query])
              /\ VerifySignature ctx image ids s
                 = (inl (fmt_Errorf_w "error verifying legacy signature: " err),
                    mkState w1 (onces s), [EvTrustedRoot (inr tr); query])))
    /\ (forall la legacyStatus w1 sigs w2,
           cosign_VerifyImageSignatures ctx ref (CheckOpts.mk ids false (Some tr)) w0
           = (la, w1) ->
           legacyPasses la legacyStatus ->
           cosign_VerifyImageAttestations ctx ref (CheckOpts.mk ids true (Some tr)) w1
           = ((sigs, true, None), w2) ->
           let query :=
             EvVerifyImageAttestations ctx ref (CheckOpts.mk ids true (Some tr))
               (sigs, true, None) in
           let record :=
             [EvTrustedRoot (inr tr);
              EvVerifyImageSignatures ctx ref (CheckOpts.mk ids false (Some tr)) la;
              query] in
           (Forall bundledWellFormed sigs ->
            verifyBundledSignature ctx ref tr ids (mkState w1 (onces s))
            = ((true, None), mkState w2 (onces s), [query])
            /\ VerifySignature ctx image ids s
               = (inr (mkSignatureStatus legacyStatus true),
                  mkState w2 (onces s), record))
           /\ (~ Forall bundledWellFormed sigs ->
               exists err,
                 MalformedSignatureError err
                 /\ verifyBundledSignature ctx ref tr ids (mkState w1 (onces s))
                    = ((false, Some err), mkState w2 (onces s), [query])
                 /\ VerifySignature ctx image ids s
                    = (inl (fmt_Errorf_w "error verifying bundled signature: " err),
                       mkState w2 (onces s), record)))
    /\ (forall st s' ev,
           VerifySignature ctx image ids s = (inr st, s', ev) ->
           exists la w1 ba w2,
             cosign_VerifyImageSignatures ctx ref (CheckOpts.mk ids false (Some tr)) w0
             = (la, w1)
             /\ cosign_VerifyImageAttestations ctx ref
                  (CheckOpts.mk ids true (Some tr)) w1 = (ba, w2)
             /\ (LegacySignature st = true ->
                 exists sigs, la = (sigs, true, None) /\ Forall legacyWellFormed sigs)
             /\ (BundleSignature st = true ->
                 exists sigs, ba = (sigs, true, None) /\ Forall bundledWellFormed sigs)).
Proof.
  intros ctx image ids s ref tr w0 Hp Hr. split; [| split].
  - intros sigs w1 Ha query.
    pose proof (legacy_on_verified ctx ref tr ids (mkState w0 (onces s)) sigs w1 Ha)
      as Hl.
    pose proof (legacy_verdict sigs) as Hd.
    destruct (rangeSignatures legacySignatureCheck sigs) as [err |].
    + destruct Hd as [Hn Hm]. split; [intros Hall; contradiction |].
      intros _. exists err. split; [exact Hm |]. split; [exact Hl |].
      rewrite (VerifySignature_legacy_fails _ _ _ _ _ _ _ _ _ _ _ Hp Hr Hl).
      reflexivity.
    + split; [intros _; exact Hl | intros Hn; contradiction].
  - intros la legacyStatus w1 sigs w2 Ha Hpass Hb query record.
    pose proof (legacyPasses_run ctx ref tr ids (mkState w0 (onces s)) la w1 _ Ha Hpass)
      as Hl.
    pose proof (bundled_on_verified ctx ref tr ids (mkState w1 (onces s)) sigs w2 Hb)
      as Hbr.
    pose proof (bundled_verdict sigs) as Hd.
    destruct (rangeSignatures bundledSignatureCheck sigs) as [err |].
    + destruct Hd as [Hn Hm]. split; [intros Hall; contradiction |].
      intros _. exists err. split; [exact Hm |]. split; [exact Hbr |].
      rewrite (VerifySignature_bundled_decides _ _ _ _ _ _ _ _ _ _ _ _ _ _ Hp Hr Hl Hbr).
      reflexivity.
    + split; [| intros Hn; contradiction].
      intros _. split; [exact Hbr |].
      rewrite (VerifySignature_bundled_decides _ _ _ _ _ _ _ _ _ _ _ _ _ _ Hp Hr Hl Hbr).
      reflexivity.
  - intros st s' ev H.
    destruct (cosign_VerifyImageSignatures ctx ref (CheckOpts.mk ids false (Some tr)) w0)
      as [la w1] eqn:Ha.
    destruct (verifyLegacySignature_on ctx ref tr ids (mkState w0 (onces s)) la w1 Ha)
      as [[lflag lerr] Hl].
    destruct lerr as [err |].
    { rewrite (VerifySignature_legacy_fails _ _ _ _ _ _ _ _ _ _ _ Hp Hr Hl) in H.
      discriminate H. }
    destruct (cosign_VerifyImageAttestations ctx ref (CheckOpts.mk ids true (Some tr)) w1)
      as [ba w2] eqn:Hb.
    destruct (verifyBundledSignature_on ctx ref tr ids (mkState w1 (onces s)) ba w2 Hb)
      as [[bflag berr] Hbr].
    rewrite (VerifySignature_bundled_decides _ _ _ _ _ _ _ _ _ _ _ _ _ _ Hp Hr Hl Hbr)
      in H.
    destruct berr; [discriminate H |]. inversion H; subst; clear H. simpl.
    exists la, w1, ba, w2. split; [reflexivity |]. split; [exact Hb |].
    split; intros Ht; subst.
    + pose proof (legacy_run_passes ctx ref tr ids (mkState w0 (onces s))
                    la w1 _ _ _ Ha Hl) as Hpass.
      inversion Hpass; subst. eauto.
    + pose proof (bundled_run_passes ctx ref tr ids (mkState w1 (onces s))
                    ba w2 _ _ _ Hb Hbr) as Hpass.
      inversion Hpass; subst. eauto.
Qed.

(** C9: when the error of the query of a format is the backend's "no
    signatures found" (legacy) or "no matching attestations" (bundled)
    condition, the per-format function returns the flag false and no
    error.  After an absent legacy format [VerifySignature] goes on to the
    bundled format and returns what that format decides, with the legacy
    flag false; after a legacy format that has passed, an absent bundled
    format gives a status with the bundled flag false and no error. *)
Theorem absent_format_is_not_an_error :
  forall ctx image ids s ref tr w0,
    name_ParseReference image = inr ref ->
    cosign_TrustedRoot (world s) = (inr tr, w0) ->
    (forall sigs bv err w1,
        cosign_VerifyImageSignatures ctx ref (CheckOpts.mk ids false (Some tr)) w0
        = ((sigs, bv, Some err), w1) ->
        validateNoSignatureFound err = true ->
        let query :=
          EvVerifyImageSignatures ctx ref (CheckOpts.mk ids false (Some tr))
            (sigs, bv, Some err) in
        verifyLegacySignature ctx ref tr ids (mkState w0 (onces s))
        = ((false, None), mkState w1 (onces s), [query])
        /\ forall bundledStatus berr s2 ev2,
            verifyBundledSignature ctx ref tr ids (mkState w1 (onces s))
            = ((bundledStatus, berr), s2, ev2) ->
            VerifySignature ctx image ids s
            = (match berr with
               | Some e =>
                   inl (fmt_Errorf_w "error verifying bundled signature: " e)
               | None => inr (mkSignatureStatus false bundledStatus)
               end, s2, EvTrustedRoot (inr tr) :: query :: ev2))
    /\ (forall la legacyStatus w1 sigs bv err w2,
           cosign_VerifyImageSignatures ctx ref (CheckOpts.mk ids false (Some tr)) w0
           = (la, w1) ->
           legacyPasses la legacyStatus ->
           cosign_VerifyImageAttestations ctx ref (CheckOpts.mk ids true (Some tr)) w1
           = ((sigs, bv, Some err), w2) ->
           validateNoMatchingAttestations err = true ->
           let query :=
             EvVerifyImageAttestations ctx ref (CheckOpts.mk ids true (Some tr))
               (sigs, bv, Some err) in
           verifyBundledSignature ctx ref tr ids (mkState w1 (onces s))
           = ((false, None), mkState w2 (onces s), [query])
           /\ VerifySignature ctx image ids s
              = (inr (mkSignatureStatus legacyStatus false),
                 mkState w2 (onces s),
                 [EvTrustedRoot (inr tr);
                  EvVerifyImageSignatures ctx ref (CheckOpts.mk ids false (Some tr)) la;
                  query])).
Proof.
  intros ctx image ids s ref tr w0 Hp Hr. split.
  - intros sigs bv err w1 Ha Hv query.
    pose proof (legacy_on_error ctx ref tr ids (mkState w0 (onces s)) sigs bv err w1 Ha)
      as Hl.
    rewrite Hv in Hl. split; [exact Hl |].
    intros bundledStatus berr s2 ev2 Hb.
    rewrite (VerifySignature_bundled_decides _ _ _ _ _ _ _ _ _ _ _ _ _ _ Hp Hr Hl Hb).
    reflexivity.
  - intros la legacyStatus w1 sigs bv err w2 Ha Hpass Hb Hv query.
    pose proof (legacyPasses_run ctx ref tr ids (mkState w0 (onces s)) la w1 _ Ha Hpass)
      as Hl.
    pose proof (bundled_on_error ctx ref tr ids (mkState w1 (onces s)) sigs bv err w2 Hb)
      as Hbr.
    rewrite Hv in Hbr. split; [exact Hbr |].
    rewrite (VerifySignature_bundled_decides _ _ _ _ _ _ _ _ _ _ _ _ _ _ Hp Hr Hl Hbr).
    reflexivity.
Qed.

(** X2: [VerifySignature] makes at most three external calls, in the
    order trusted root, legacy query, bundled query.  A reference that
    does not parse leads to no call at all; a failed root fetch ends the
    run; the legacy query is for the parsed reference with the identities
    of the caller and the trusted root just fetched; the bundled query,
    with the new-bundle-format option, is made when the legacy format has
    passed and only then: an answer on which the legacy format fails ends
    the run with two calls and the legacy error. *)
Theorem VerifySignature_call_sequence :
  forall ctx image ids s r s' ev,
    VerifySignature ctx image ids s = (r, s', ev) ->
    match name_ParseReference image with
    | inl err =>
        ev = []
        /\ s' = s
        /\ r = inl (fmt_Errorf_w
                      ("error parsing image reference for " +:+ image +:+ ": ") err)
    | inr ref =>
        exists rr w0,
          cosign_TrustedRoot (world s) = (rr, w0)
          /\ match rr with
             | inl err =>
                 ev = [EvTrustedRoot (inl err)]
                 /\ r = inl (fmt_Errorf_w "error getting trusted roots: " err)
             | inr tr =>
                 exists la w1,
                   cosign_VerifyImageSignatures ctx ref
                     (CheckOpts.mk ids false (Some tr)) w0 = (la, w1)
                   /\ let legacyQuery :=
                        EvVerifyImageSignatures ctx ref
                          (CheckOpts.mk ids false (Some tr)) la in
                      ((~ (exists f, legacyPasses la f))
                       /\ ev = [EvTrustedRoot (inr tr); legacyQuery]
                       /\ exists err,
                           r = inl (fmt_Errorf_w
                                      "error verifying legacy signature: " err))
                      \/ (exists f ba w2,
                             legacyPasses la f
                             /\ cosign_VerifyImageAttestations ctx ref
                                  (CheckOpts.mk ids true (Some tr)) w1 = (ba, w2)
                             /\ ev = [EvTrustedRoot (inr tr); legacyQuery;
                                      EvVerifyImageAttestations ctx ref
                                        (CheckOpts.mk ids true (Some tr)) ba]
                             /\ ((exists fb,
                                     bundledPasses ba fb
                                     /\ r = inr (mkSignatureStatus f fb))
                                 \/ ((~ (exists fb, bundledPasses ba fb))
                                     /\ exists err,
                                         r = inl (fmt_Errorf_w
                                                    "error verifying bundled signature: "
                                                    err))))
             end
    end.
Proof.
  intros ctx image ids s r s' ev H.
  destruct (name_ParseReference image) as [perr | ref] eqn:Hp.
  - unfold VerifySignature in H. rewrite Hp in H. unfold ret in H.
    inversion H; subst. auto.
  - destruct (cosign_TrustedRoot (world s)) as [[rerr | tr] w0] eqn:Hr.
    + exists (inl rerr), w0. split; [reflexivity |].
      unfold VerifySignature in H. rewrite Hp in H.
      unfold bind at 1 in H. unfold TrustedRoot at 1, extcall at 1 in H.
      rewrite Hr in H. unfold ret in H. inversion H; subst. auto.
    + exists (inr tr), w0. split; [reflexivity |].
      destruct (cosign_VerifyImageSignatures ctx ref
                  (CheckOpts.mk ids false (Some tr)) w0) as [la w1] eqn:Ha.
      exists la, w1. split; [reflexivity |]. cbv zeta.
      destruct (verifyLegacySignature_on ctx ref tr ids (mkState w0 (onces s)) la w1 Ha)
        as [[lflag lerr] Hl].
      destruct lerr as [err |].
      * left.
        rewrite (VerifySignature_legacy_fails _ _ _ _ _ _ _ _ _ _ _ Hp Hr Hl) in H.
        inversion H; subst.
        split; [exact (legacy_error_fails ctx ref tr ids (mkState w0 (onces s))
                         la w1 _ _ _ _ Ha Hl) |].
        split; [reflexivity | eauto].
      * right.
        destruct (cosign_VerifyImageAttestations ctx ref
                    (CheckOpts.mk ids true (Some tr)) w1) as [ba w2] eqn:Hb.
        destruct (verifyBundledSignature_on ctx ref tr ids (mkState w1 (onces s))
                    ba w2 Hb) as [[bflag berr] Hbr].
        rewrite (VerifySignature_bundled_decides
                   _ _ _ _ _ _ _ _ _ _ _ _ _ _ Hp Hr Hl Hbr) in H.
        inversion H; subst.
        exists lflag, ba, w2.
        split; [exact (legacy_run_passes ctx ref tr ids (mkState w0 (onces s))
                         la w1 _ _ _ Ha Hl) |].
        split; [reflexivity |]. split; [reflexivity |].
        destruct berr as [err |].
        -- right.
           split; [exact (bundled_error_fails ctx ref tr ids (mkState w1 (onces s))
                            ba w2 _ _ _ _ Hb Hbr) | eauto].
        -- left. exists bflag.
           split; [exact (bundled_run_passes ctx ref tr ids (mkState w1 (onces s))
                            ba w2 _ _ _ Hb Hbr) | reflexivity].
Qed.

(** X3: an error of a verification query that [errors.As] does not take
    for the not-found condition of that format is returned as it is by
    the per-format function, whatever signatures and flag come with it,
    and [VerifySignature] returns it wrapped with the name of the format:
    for the legacy format without asking the bundled query, for the
    bundled format whenever the legacy format has passed. *)
Theorem other_backend_errors_propagate :
  forall ctx image ids s ref tr w0,
    name_ParseReference image = inr ref ->
    cosign_TrustedRoot (world s) = (inr tr, w0) ->
    (forall sigs bv err w1,
        cosign_VerifyImageSignatures ctx ref (CheckOpts.mk ids false (Some tr)) w0
        = ((sigs, bv, Some err), w1) ->
        validateNoSignatureFound err = false ->
        let query :=
          EvVerifyImageSignatures ctx ref (CheckOpts.mk ids false (Some tr))
            (sigs, bv, Some err) in
        verifyLegacySignature ctx ref tr ids (mkState w0 (onces s))
        = ((false, Some err), mkState w1 (onces s), [query])
        /\ VerifySignature ctx image ids s
           = (inl (fmt_Errorf_w "error verifying legacy signature: " err),
              mkState w1 (onces s), [EvTrustedRoot (inr tr); query]))
    /\ (forall la legacyStatus w1 sigs bv err w2,
           cosign_VerifyImageSignatures ctx ref (CheckOpts.mk ids false (Some tr)) w0
           = (la, w1) ->
           legacyPasses la legacyStatus ->
           cosign_VerifyImageAttestations ctx ref (CheckOpts.mk ids true (Some tr)) w1
           = ((sigs, bv, Some err), w2) ->
           validateNoMatchingAttestations err = false ->
           let query :=
             EvVerifyImageAttestations ctx ref (CheckOpts.mk ids true (Some tr))
               (sigs, bv, Some err) in
           verifyBundledSignature ctx ref tr ids (mkState w1 (onces s))
           = ((false, Some err), mkState w2 (onces s), [query])
           /\ VerifySignature ctx image ids s
              = (inl (fmt_Errorf_w "error verifying bundled signature: " err),
                 mkState w2 (onces s),
                 [EvTrustedRoot (inr tr);
                  EvVerifyImageSignatures ctx ref (CheckOpts.mk ids false (Some tr)) la;
                  query])).
Proof.
  intros ctx image ids s ref tr w0 Hp Hr. split.
  - intros sigs bv err w1 Ha Hv query.
    pose proof (legacy_on_error ctx ref tr ids (mkState w0 (onces s)) sigs bv err w1 Ha)
      as Hl.
    rewrite Hv in Hl. split; [exact Hl |].
    rewrite (VerifySignature_legacy_fails _ _ _ _ _ _ _ _ _ _ _ Hp Hr Hl).
    reflexivity.
  - intros la legacyStatus w1 sigs bv err w2 Ha Hpass Hb Hv query.
    pose proof (legacyPasses_run ctx ref tr ids (mkState w0 (onces s)) la w1 _ Ha Hpass)
      as Hl.
    pose proof (bundled_on_error ctx ref tr ids (mkState w1 (onces s)) sigs bv err w2 Hb)
      as Hbr.
    rewrite Hv in Hbr. split; [exact Hbr |].
    rewrite (VerifySignature_bundled_decides _ _ _ _ _ _ _ _ _ _ _ _ _ _ Hp Hr Hl Hbr).
    reflexivity.
Qed.

(** X4: a query that succeeds with the bundle verification flag true and
    no signature at all counts as that format being present: the loop over
    the signatures has nothing to reject.  The per-format function returns
    the flag true, and [VerifySignature] reports the flag true in the
    status it returns unless the other format fails. *)
Theorem verified_empty_set_is_present :
  forall ctx image ids s ref tr w0,
    name_ParseReference image = inr ref ->
    cosign_TrustedRoot (world s) = (inr tr, w0) ->
    (forall w1,
        cosign_VerifyImageSignatures ctx ref (CheckOpts.mk ids false (Some tr)) w0
        = (([], true, None), w1) ->
        let query :=
          EvVerifyImageSignatures ctx ref (CheckOpts.mk ids false (Some tr))
            ([], true, None) in
        verifyLegacySignature ctx ref tr ids (mkState w0 (onces s))
        = ((true, None), mkState w1 (onces s), [query])
        /\ forall bundledStatus berr s2 ev2,
            verifyBundledSignature ctx ref tr ids (mkState w1 (onces s))
            = ((bundledStatus, berr), s2, ev2) ->
            VerifySignature ctx image ids s
            = (match berr with
               | Some e =>
                   inl (fmt_Errorf_w "error verifying bundled signature: " e)
               | None => inr (mkSignatureStatus true bundledStatus)
               end, s2, EvTrustedRoot (inr tr) :: query :: ev2))
    /\ (forall la legacyStatus w1 w2,
           cosign_VerifyImageSignatures ctx ref (CheckOpts.mk ids false (Some tr)) w0
           = (la, w1) ->
           legacyPasses la legacyStatus ->
           cosign_VerifyImageAttestations ctx ref (CheckOpts.mk ids true (Some tr)) w1
           = (([], true, None), w2) ->
           let query :=
             EvVerifyImageAttestations ctx ref (CheckOpts.mk ids true (Some tr))
               ([], true, None) in
           verifyBundledSignature ctx ref tr ids (mkState w1 (onces s))
           = ((true, None), mkState w2 (onces s), [query])
           /\ VerifySignature ctx image ids s
              = (inr (mkSignatureStatus legacyStatus true),
                 mkState w2 (onces s),
                 [EvTrustedRoot (inr tr);
                  EvVerifyImageSignatures ctx ref (CheckOpts.mk ids false (Some tr)) la;
                  query])).
Proof.
  intros ctx image ids s ref tr w0 Hp Hr. split.
  - intros w1 Ha query.
    pose proof (legacy_on_verified ctx ref tr ids (mkState w0 (onces s)) [] w1 Ha)
      as Hl.
    simpl in Hl. split; [exact Hl |].
    intros bundledStatus berr s2 ev2 Hb.
    rewrite (VerifySignature_bundled_decides _ _ _ _ _ _ _ _ _ _ _ _ _ _ Hp Hr Hl Hb).
    reflexivity.
  - intros la legacyStatus w1 w2 Ha Hpass Hb query.
    pose proof (legacyPasses_run ctx ref tr ids (mkState w0 (onces s)) la w1 _ Ha Hpass)
      as Hl.
    pose proof (bundled_on_verified ctx ref tr ids (mkState w1 (onces s)) [] w2 Hb)
      as Hbr.
    simpl in Hbr. split; [exact Hbr |].
    rewrite (VerifySignature_bundled_decides _ _ _ _ _ _ _ _ _ _ _ _ _ _ Hp Hr Hl Hbr).
    reflexivity.
Qed.

End Inspector.

Section Credential.

Context {W : Type} `{Ext : Externals W}.

Implicit Types (s : State W) (ev : list event).

Lemma providerTokenGetter_None provider :
  providerTokenGetter provider = None <-> ~ In provider supportedProviders.
Proof.
  unfold providerTokenGetter, supportedProviders. simpl.
  destruct (String.eqb_spec provider "");
    [split; [discriminate | intros H; exfalso; apply H; auto] |].
  destruct (String.eqb_spec provider "google");
    [split; [discriminate | intros H; exfalso; apply H; auto] |].
  destruct (String.eqb_spec provider "github");
    [split; [discriminate | intros H; exfalso; apply H; auto] |].
  destruct (String.eqb_spec provider "microsoft");
    [split; [discriminate | intros H; exfalso; apply H; auto 6] |].
  split; [| reflexivity]. intros _ H.
  repeat (destruct H as [H | H]; [congruence |]). exact H.
Qed.

(** The function literal of [getToken], by the case of its switch. *)
Lemma getToken_func_run provider deviceFlow s :
  getToken_func provider deviceFlow s =
  match providerTokenGetter provider with
  | None =>
      (("", Some (fmt_Errorf ("unsupported provider: " +:+ provider))), s, [])
  | Some tg =>
      let tokenGetter :=
        if deviceFlow
        then NewDeviceFlowTokenGetterForIssuer DefaultOIDCIssuerURL
        else tg in
      let '(a, w) :=
        oauthflow_OIDConnect DefaultOIDCIssuerURL SigstoreOIDCClientID "" ""
          tokenGetter (world s) in
      (match a with
       | inl err => ("", Some err)
       | inr tok => (RawString tok, None)
       end,
       mkState w (onces s),
       [EvOIDConnect DefaultOIDCIssuerURL SigstoreOIDCClientID "" ""
          tokenGetter a])
  end.
Proof.
  unfold getToken_func. destruct (providerTokenGetter provider); [| reflexivity].
  unfold_calls.
  destruct (oauthflow_OIDConnect _ _ _ _ _ _) as [[err | tok] w]; reflexivity.
Qed.

Lemma getToken_func_onces provider deviceFlow s r s' ev :
  getToken_func provider deviceFlow s = (r, s', ev) -> onces s' = onces s.
Proof.
  rewrite getToken_func_run.
  destruct (providerTokenGetter provider).
  - cbv zeta. destruct (oauthflow_OIDConnect _ _ _ _ _ _) as [a w].
    intros H; inversion H; reflexivity.
  - intros H; inversion H; reflexivity.
Qed.

(** A [sync.OnceValues] function that has run returns its stored pair and
    does nothing else. *)
Lemma callOnce_resolved f s provider deviceFlow r :
  onces s !! f = Some (mkOnce provider deviceFlow (Some r)) ->
  callOnce f s = (r, s, []).
Proof. unfold callOnce. intros H; rewrite H; reflexivity. Qed.

(** The first call of a [sync.OnceValues] function runs the function
    literal and stores what it returned. *)
Lemma callOnce_first f s provider deviceFlow r s1 ev :
  onces s !! f = Some (mkOnce provider deviceFlow None) ->
  getToken_func provider deviceFlow s = (r, s1, ev) ->
  callOnce f s =
    (r, mkState (world s1) (<[f := mkOnce provider deviceFlow (Some r)]> (onces s)), ev)
  /\ <[f := mkOnce provider deviceFlow (Some r)]> (onces s) !! f
     = Some (mkOnce provider deviceFlow (Some r)).
Proof.
  unfold callOnce. intros Hl Hg. rewrite Hl, Hg.
  rewrite (getToken_func_onces _ _ _ _ _ _ Hg). split; [reflexivity |].
  apply list_lookup_insert_eq. eapply lookup_lt_Some; eassumption.
Qed.

(** C7, amended: with [deviceFlow] true and a provider of the enumerated
    set, the one authentication flow that runs uses the device-code token
    getter for the default issuer, whatever the provider; for any other
    provider the function returns the unsupported-provider error and no
    flow runs, also with [deviceFlow] true. *)
Theorem device_flow_overrides_supported_providers :
  forall provider s,
    (In provider supportedProviders ->
     exists a w,
       oauthflow_OIDConnect DefaultOIDCIssuerURL SigstoreOIDCClientID "" ""
         (NewDeviceFlowTokenGetterForIssuer DefaultOIDCIssuerURL) (world s) = (a, w)
       /\ getToken_func provider true s =
          (match a with
           | inl err => ("", Some err)
           | inr tok => (RawString tok, None)
           end,
           mkState w (onces s),
           [EvOIDConnect DefaultOIDCIssuerURL SigstoreOIDCClientID "" ""
              (NewDeviceFlowTokenGetterForIssuer DefaultOIDCIssuerURL) a]))
    /\ (~ In provider supportedProviders ->
        getToken_func provider true s =
        (("", Some (fmt_Errorf ("unsupported provider: " +:+ provider))), s, [])).
Proof.
  intros provider s. rewrite getToken_func_run. split; intros H.
  - destruct (providerTokenGetter provider) eqn:Hp.
    + cbv zeta.
      destruct (oauthflow_OIDConnect _ _ _ _ _ _) as [a w]. eauto.
    + apply providerTokenGetter_None in Hp. contradiction.
  - apply providerTokenGetter_None in H. rewrite H. reflexivity.
Qed.

(** C8: for a provider outside the enumerated set the function literal
    returns the unsupported-provider error and makes no external call;
    the function that [getToken] returns gives that error at its first
    call, makes no call to the issuer, leaves the world as it was, and at
    every later call returns the same stored error without running
    anything. *)
Theorem unsupported_provider_fails_and_is_cached :
  forall provider deviceFlow s,
    ~ In provider supportedProviders ->
    let err := fmt_Errorf ("unsupported provider: " +:+ provider) in
    getToken_func provider deviceFlow s = (("", Some err), s, [])
    /\ forall f s0 ev0 r1 s1 ev1,
        getToken provider deviceFlow s = (f, s0, ev0) ->
        callOnce f s0 = (r1, s1, ev1) ->
        r1 = ("", Some err) /\ ev0 = [] /\ ev1 = [] /\ world s1 = world s
        /\ callOnce f s1 = (r1, s1, [])
        /\ forall s2, onces s2 !! f = onces s1 !! f -> callOnce f s2 = (r1, s2, []).
Proof.
  intros provider deviceFlow s Hn err.
  assert (Hg : forall s0 : State W,
             getToken_func provider deviceFlow s0 = (("", Some err), s0, [])).
  { intros s0. rewrite getToken_func_run.
    apply providerTokenGetter_None in Hn. rewrite Hn. reflexivity. }
  split; [apply Hg |].
  intros f s0 ev0 r1 s1 ev1 Hget Hcall.
  unfold getToken in Hget. inversion Hget; subst; clear Hget.
  assert (Hl : onces (mkState (world s) (onces s ++ [mkOnce provider deviceFlow None]))
               !! length (onces s) = Some (mkOnce provider deviceFlow None)).
  { simpl. apply list_lookup_middle. reflexivity. }
  destruct (callOnce_first _ _ _ _ _ _ _ Hl (Hg _)) as [Hc Hstored].
  rewrite Hc in Hcall. inversion Hcall; subst; clear Hcall. simpl in *.
  repeat split.
  - eapply callOnce_resolved. simpl. exact Hstored.
  - intros s2 Hs2. eapply callOnce_resolved. rewrite Hs2. simpl. exact Hstored.
Qed.

(** X8: the function that [getToken] returns runs the function literal
    at its first call, which is at most one authentication flow, and keeps
    what it returned, a token or an error of the issuer alike: every later
    call of that same function returns the same pair, makes no external
    call and changes nothing. *)
Theorem getToken_function_runs_once :
  forall provider deviceFlow s f s0 ev0 r1 s1 ev1,
    getToken provider deviceFlow s = (f, s0, ev0) ->
    callOnce f s0 = (r1, s1, ev1) ->
    ev0 = []
    /\ world s0 = world s
    /\ fst (fst (getToken_func provider deviceFlow s0)) = r1
    /\ snd (getToken_func provider deviceFlow s0) = ev1
    /\ length (authFlows ev1) <= 1
    /\ callOnce f s1 = (r1, s1, [])
    /\ forall s2, onces s2 !! f = onces s1 !! f -> callOnce f s2 = (r1, s2, []).
Proof.
  intros provider deviceFlow s f s0 ev0 r1 s1 ev1 Hget Hcall.
  unfold getToken in Hget. inversion Hget; subst; clear Hget.
  set (s0 := mkState (world s) (onces s ++ [mkOnce provider deviceFlow None])) in *.
  assert (Hl : onces s0 !! length (onces s) = Some (mkOnce provider deviceFlow None)).
  { subst s0. simpl. apply list_lookup_middle. reflexivity. }
  destruct (getToken_func provider deviceFlow s0) as [[r s2] ev] eqn:Hg.
  destruct (callOnce_first _ _ _ _ _ _ _ Hl Hg) as [Hc Hstored].
  rewrite Hc in Hcall. inversion Hcall; subst r1 s1 ev1; clear Hcall. simpl.
  repeat split.
  - rewrite getToken_func_run in Hg.
    destruct (providerTokenGetter provider).
    + cbv zeta in Hg. destruct (oauthflow_OIDConnect _ _ _ _ _ _) as [a w].
      inversion Hg; subst. simpl. lia.
    + inversion Hg; subst. simpl. lia.
  - eapply callOnce_resolved. simpl. exact Hstored.
  - intros s3 Hs3. eapply callOnce_resolved. rewrite Hs3. simpl. exact Hstored.
Qed.

End Credential.

Section Dispatcher.

Context {W : Type} `{Ext : Externals W}.

Implicit Types (s : State W) (ev : list event).

Lemma callOnce_fresh provider deviceFlow w (l : list onceValues) :
  callOnce (length l) (mkState w (l ++ [mkOnce provider deviceFlow None])) =
  let '(r, s1, ev) :=
    getToken_func provider deviceFlow
      (mkState w (l ++ [mkOnce provider deviceFlow None])) in
  (r,
   mkState (world s1)
     (<[length l := mkOnce provider deviceFlow (Some r)]>
        (l ++ [mkOnce provider deviceFlow None])),
   ev).
Proof.
  destruct (getToken_func provider deviceFlow
              (mkState w (l ++ [mkOnce provider deviceFlow None])))
    as [[r s1] ev] eqn:Hg.
  assert (Hl : onces (mkState w (l ++ [mkOnce provider deviceFlow None]))
               !! length l = Some (mkOnce provider deviceFlow None)).
  { simpl. apply list_lookup_middle. reflexivity. }
  destruct (callOnce_first _ _ _ _ _ _ _ Hl Hg) as [Hc _].
  rewrite Hc. reflexivity.
Qed.


Lemma fresh_once_length (l : list onceValues) provider deviceFlow r :
  length (<[length l := mkOnce provider deviceFlow (Some r)]>
            (l ++ [mkOnce provider deviceFlow None]))
  = S (length l).
Proof. rewrite length_insert, length_app. simpl. lia. Qed.

(** Opens a run of [SignImage] up to the signing calls. *)
Ltac open_SignImage s :=
  unfold SignImage; unfold bind at 1; unfold TrustedRoot at 1, extcall at 1;
  destruct (cosign_TrustedRoot (world s)) as [[?err | ?tr] ?w];
  [ unfold ret
  | unfold bind at 1; unfold getToken at 1; unfold bind at 1;
    simpl onces; simpl world;
    rewrite callOnce_fresh, getToken_func_run;
    destruct (providerTokenGetter _) as [?tg |] eqn:?Hp;
    [ cbv zeta; simpl world;
      destruct (oauthflow_OIDConnect _ _ _ _ _ _) as [[?err | ?tok] ?w]
    | ] ].

Ltac run_SignCmds :=
  unfold_calls; simpl;
  repeat match goal with
    | |- context [sign_SignCmd ?a ?b ?c ?d ?e] =>
        destruct (sign_SignCmd a b c d e) as [[?e |] ?w]; simpl
    end.



Lemma providerTokenGetter_Some provider tg :
  providerTokenGetter provider = Some tg -> In provider supportedProviders.
Proof.
  unfold providerTokenGetter, supportedProviders. simpl.
  destruct (String.eqb_spec provider ""); [auto |].
  destruct (String.eqb_spec provider "google"); [auto |].
  destruct (String.eqb_spec provider "github"); [auto |].
  destruct (String.eqb_spec provider "microsoft"); [auto 6 |].
  discriminate.
Qed.

Lemma fresh_once_insert (l : list onceValues) provider deviceFlow r :
  <[length l := mkOnce provider deviceFlow (Some r)]>
    (l ++ [mkOnce provider deviceFlow None])
  = l ++ [mkOnce provider deviceFlow (Some r)].
Proof. induction l as [| x l IH]; simpl; [reflexivity | f_equal; exact IH]. Qed.

(** C10: a call of [SignImage] with both formats already signed is not
    rejected.  It fetches the trusted root of the world and, if that
    fails, returns the root error.  Otherwise it allocates a new
    [sync.OnceValues] function and runs it: for a provider of the
    enumerated set this is one authentication flow at the issuer, and the
    call returns nil if the issuer gives a token and the wrapped error of
    the issuer if not; for any other provider it returns the wrapped
    unsupported-provider error.  In no case is there a signing call: the
    record is the root fetch, followed by the flow if there is one. *)
Theorem SignImage_fully_signed_still_authenticates :
  forall image provider deviceFlow timeout s,
    (forall err w0,
        cosign_TrustedRoot (world s) = (inl err, w0) ->
        SignImage image true true provider deviceFlow timeout s
        = (Some (fmt_Errorf_w "error getting trusted roots: " err),
           mkState w0 (onces s), [EvTrustedRoot (inl err)]))
    /\ (forall tr w0,
           cosign_TrustedRoot (world s) = (inr tr, w0) ->
           (forall tg a w1,
               providerTokenGetter provider = Some tg ->
               let selected :=
                 if deviceFlow
                 then NewDeviceFlowTokenGetterForIssuer DefaultOIDCIssuerURL
                 else tg in
               oauthflow_OIDConnect DefaultOIDCIssuerURL SigstoreOIDCClientID "" ""
                 selected w0 = (a, w1) ->
               SignImage image true true provider deviceFlow timeout s
               = (match a with
                  | inl err => Some (fmt_Errorf_w "error getting OIDC token: " err)
                  | inr _ => None
                  end,
                  mkState w1
                    (onces s
                       ++ [mkOnce provider deviceFlow
                             (Some match a with
                                   | inl err => ("", Some err)
                                   | inr tok => (RawString tok, None)
                                   end)]),
                  [EvTrustedRoot (inr tr);
                   EvOIDConnect DefaultOIDCIssuerURL SigstoreOIDCClientID "" ""
                     selected a]))
           /\ (~ In provider supportedProviders ->
               let unsupported :=
                 fmt_Errorf ("unsupported provider: " +:+ provider) in
               SignImage image true true provider deviceFlow timeout s
               = (Some (fmt_Errorf_w "error getting OIDC token: " unsupported),
                  mkState w0
                    (onces s ++ [mkOnce provider deviceFlow (Some ("", Some unsupported))]),
                  [EvTrustedRoot (inr tr)]))).
Proof.
  intros image provider deviceFlow timeout s. split.
  - intros err w0 Hr. unfold SignImage. unfold bind at 1.
    unfold TrustedRoot at 1, extcall at 1. rewrite Hr. reflexivity.
  - intros tr w0 Hr. split.
    + intros tg a w1 Hp selected Ho. unfold SignImage. unfold bind at 1.
      unfold TrustedRoot at 1, extcall at 1. rewrite Hr.
      unfold bind at 1. unfold getToken at 1. unfold bind at 1.
      simpl onces. simpl world.
      rewrite callOnce_fresh, getToken_func_run, Hp. cbv zeta. simpl world.
      fold selected. rewrite Ho. rewrite fresh_once_insert.
      destruct a as [err | tok]; reflexivity.
    + intros Hn unsupported. apply providerTokenGetter_None in Hn.
      unfold SignImage. unfold bind at 1.
      unfold TrustedRoot at 1, extcall at 1. rewrite Hr.
      unfold bind at 1. unfold getToken at 1. unfold bind at 1.
      simpl onces. simpl world.
      rewrite callOnce_fresh, getToken_func_run, Hn. rewrite fresh_once_insert.
      reflexivity.
Qed.

(** Every call of [SignImage] that gets the trusted root runs an
    authentication flow of its own for a provider of the enumerated set,
    whatever functions earlier calls have left in the store: the function
    it calls is one it has just allocated. *)
Lemma SignImage_runs_its_own_flow
    image legacySigned bundleSigned provider deviceFlow timeout s r s' ev tr :
  In provider supportedProviders ->
  SignImage image legacySigned bundleSigned provider deviceFlow timeout s
  = (r, s', ev) ->
  In (EvTrustedRoot (inr tr)) ev ->
  length (authFlows ev) = 1.
Proof.
  intros Hsup. revert r s' ev.
  assert (Hsome : providerTokenGetter provider <> None).
  { intros Hn. apply providerTokenGetter_None in Hn. contradiction. }
  intros r s' ev. open_SignImage s; try contradiction.
  - unfold ret. intros Hrun Hin. invert_pairs. in_events.
  - unfold ret; simpl. intros Hrun Hin. invert_pairs. reflexivity.
  - destruct legacySigned, bundleSigned; run_SignCmds;
      intros Hrun Hin; invert_pairs; reflexivity.
Qed.

(** *** Further properties of the dispatcher *)

Lemma errType_eqb_refl t : errType_eqb t t = true.
Proof. destruct t; simpl; try reflexivity. apply String.eqb_refl. Qed.

(** [errors.As] finds an error under its own type. *)
Lemma errors_As_self e : errors_As (typeOf e) e = true.
Proof. destruct e; simpl; rewrite ?String.eqb_refl; reflexivity. Qed.

(** Wrapping with [%w] keeps what [errors.As] finds. *)
Lemma errors_As_wrap t prefix e :
  errors_As t e = true -> errors_As t (fmt_Errorf_w prefix e) = true.
Proof.
  intros H. unfold fmt_Errorf_w. simpl.
  destruct t; first [reflexivity | exact H].
Qed.

(** A run of [SignImage], whole: the record it leaves and the result it
    returns, by the answers it gets. *)
Lemma SignImage_inv image legacySigned bundleSigned provider deviceFlow timeout
    s r s' ev :
  SignImage image legacySigned bundleSigned provider deviceFlow timeout s
  = (r, s', ev) ->
  (exists err,
      ev = [EvTrustedRoot (inl err)]
      /\ r = Some (fmt_Errorf_w "error getting trusted roots: " err))
  \/ (exists tr,
         (providerTokenGetter provider = None
          /\ ev = [EvTrustedRoot (inr tr)]
          /\ r = Some (fmt_Errorf_w "error getting OIDC token: "
                         (fmt_Errorf ("unsupported provider: " +:+ provider))))
         \/ (exists tg,
                providerTokenGetter provider = Some tg
                /\ let selected :=
                     if deviceFlow
                     then NewDeviceFlowTokenGetterForIssuer DefaultOIDCIssuerURL
                     else tg in
                   ((exists err,
                        ev = [EvTrustedRoot (inr tr);
                              EvOIDConnect DefaultOIDCIssuerURL SigstoreOIDCClientID
                                "" "" selected (inl err)]
                        /\ r = Some (fmt_Errorf_w "error getting OIDC token: " err))
                    \/ (exists tok e1 e2,
                           ev = EvTrustedRoot (inr tr)
                                :: EvOIDConnect DefaultOIDCIssuerURL
                                     SigstoreOIDCClientID "" "" selected (inr tok)
                                :: fst (signingRecord image legacySigned bundleSigned
                                          timeout tr (RawString tok) e1 e2)
                           /\ r = snd (signingRecord image legacySigned bundleSigned
                                         timeout tr (RawString tok) e1 e2))))).
Proof.
  open_SignImage s.
  - intros H; invert_pairs. left. eexists; split; reflexivity.
  - unfold ret; simpl. intros H; invert_pairs.
    right. exists tr. right. exists tg. split; [reflexivity |].
    left. eexists; split; reflexivity.
  - intros Hrun. right. exists tr. right. exists tg. split; [reflexivity |].
    right. revert Hrun.
    destruct legacySigned, bundleSigned; run_SignCmds;
      intros Hrun; invert_pairs.
    all: match goal with
         | e1 : error, e2 : error |- _ =>
             first [ exists tok, (Some e1), (Some e2); split; reflexivity
                   | exists tok, (Some e2), (Some e1); split; reflexivity ]
         | e1 : error |- _ =>
             first [ exists tok, (Some e1), None; split; reflexivity
                   | exists tok, None, (Some e1); split; reflexivity ]
         | _ => exists tok, None, None; split; reflexivity
         end.
  - unfold ret; simpl. intros H; invert_pairs.
    right. exists tr. left. repeat split; reflexivity.
Qed.

(** X6: [SignImage] signs only with what it has just obtained: every
    signing call of a run is for the image given and under the timeout
    given, comes after a successful authentication flow of the same run,
    carries the raw token of that flow and the trusted root fetched by the
    run, and has the options of one of the two formats. *)
Theorem SignImage_signs_with_its_own_token :
  forall image legacySigned bundleSigned provider deviceFlow timeout s r s' ev,
    SignImage image legacySigned bundleSigned provider deviceFlow timeout s
    = (r, s', ev) ->
    forall ro ko so imgs e,
      In (EvSignCmd ro ko so imgs e) ev ->
      imgs = [image]
      /\ ro = mkRootOptions timeout
      /\ exists tr tg tok before after,
          ev = EvTrustedRoot (inr tr)
               :: EvOIDConnect DefaultOIDCIssuerURL SigstoreOIDCClientID "" "" tg
                    (inr tok)
               :: before ++ EvSignCmd ro ko so imgs e :: after
          /\ ko = expectedKeyOpts tr (RawString tok) (KeyOpts.NewBundleFormat ko)
          /\ so = expectedSignOptions (KeyOpts.NewBundleFormat ko).
Proof.
  intros image legacySigned bundleSigned provider deviceFlow timeout s r s' ev H
    ro ko so imgs e Hin.
  destruct (SignImage_inv _ _ _ _ _ _ _ _ _ _ H)
    as [[err [Hev _]]
       | [tr [[_ [Hev _]]
             | [tg [_ [[err [Hev _]] | [tok [e1 [e2 [Hev _]]]]]]]]]];
    subst ev; in_events.
  destruct legacySigned, bundleSigned; [| | | destruct e1]; simpl in Hin;
    in_events; (split; [reflexivity |]); (split; [reflexivity |]);
    exists tr,
      (if deviceFlow
       then NewDeviceFlowTokenGetterForIssuer DefaultOIDCIssuerURL else tg), tok.
  all: first
         [ exists [EvPrint ("Signing legacy signature for image: " +:+ image +:+ nl)],
             []; repeat split; reflexivity
         | exists [EvPrint ("Signing bundled signature for image: " +:+ image +:+ nl)],
             []; repeat split; reflexivity
         | eexists [_], [_; _]; repeat split; reflexivity
         | eexists [_; _; _], []; repeat split; reflexivity ].
Qed.

(** X7: with a provider outside the enumerated set, [SignImage] fails for
    every signature status: it has fetched the trusted root by then, but
    it runs no authentication flow and makes no signing call. *)
Theorem SignImage_rejects_unsupported_provider :
  forall image legacySigned bundleSigned provider deviceFlow timeout s r s' ev,
    ~ In provider supportedProviders ->
    SignImage image legacySigned bundleSigned provider deviceFlow timeout s
    = (r, s', ev) ->
    (exists rr, ev = [EvTrustedRoot rr])
    /\ match ev with
       | [EvTrustedRoot (inl err)] =>
           r = Some (fmt_Errorf_w "error getting trusted roots: " err)
       | _ =>
           r = Some (fmt_Errorf_w "error getting OIDC token: "
                       (fmt_Errorf ("unsupported provider: " +:+ provider)))
       end.
Proof.
  intros image legacySigned bundleSigned provider deviceFlow timeout s r s' ev
    Hn H.
  apply providerTokenGetter_None in Hn.
  destruct (SignImage_inv _ _ _ _ _ _ _ _ _ _ H)
    as [[err [Hev Hr]]
       | [tr [[_ [Hev Hr]]
             | [tg [Hp _]]]]]; try congruence; subst ev; eauto.
Qed.

(** A signing call that fails is the last thing a run of [SignImage]
    does, and the run returns its error under the prefix of the format. *)
Lemma SignImage_failed_call image legacySigned bundleSigned provider deviceFlow
    timeout s r s' ev ro ko so imgs e :
  SignImage image legacySigned bundleSigned provider deviceFlow timeout s
  = (r, s', ev) ->
  In (EvSignCmd ro ko so imgs (Some e)) ev ->
  imgs = [image]
  /\ (exists before, ev = before ++ [EvSignCmd ro ko so imgs (Some e)])
  /\ r = Some (fmt_Errorf_w
                 (signingErrorPrefix (KeyOpts.NewBundleFormat ko) image) e).
Proof.
  intros H Hin.
  destruct (SignImage_inv _ _ _ _ _ _ _ _ _ _ H)
    as [[err [Hev _]]
       | [tr [[_ [Hev _]]
             | [tg [_ [[err [Hev _]] | [tok [e1 [e2 [Hev Hr]]]]]]]]]];
    subst ev; in_events.
  destruct legacySigned, bundleSigned; [| | | destruct e1]; simpl in Hin, Hr;
    in_events; try subst r; (split; [reflexivity |]); (split; [| reflexivity]).
  all: first [ eexists [_; _; _]; reflexivity
             | eexists [_; _; _; _; _]; reflexivity ].
Qed.

(** A run of [SignImage] that returns nil has no failed signing call, and
    no run makes more than two signing calls or runs more than one
    authentication flow. *)
Lemma SignImage_bounds image legacySigned bundleSigned provider deviceFlow
    timeout s r s' ev :
  SignImage image legacySigned bundleSigned provider deviceFlow timeout s
  = (r, s', ev) ->
  length (signCalls ev) <= 2 /\ length (authFlows ev) <= 1.
Proof.
  intros H.
  destruct (SignImage_inv _ _ _ _ _ _ _ _ _ _ H)
    as [[err [Hev _]]
       | [tr [[_ [Hev _]]
             | [tg [_ [[err [Hev _]] | [tok [e1 [e2 [Hev Hr]]]]]]]]]];
    subst ev; simpl; try lia.
  destruct legacySigned, bundleSigned; [| | | destruct e1]; simpl; lia.
Qed.

(** Every signing call of a run of [SignImage] is for the image and under
    the timeout of the run. *)
Lemma SignImage_call_image image legacySigned bundleSigned provider deviceFlow
    timeout s r s' ev ro ko so imgs e :
  SignImage image legacySigned bundleSigned provider deviceFlow timeout s
  = (r, s', ev) ->
  In (EvSignCmd ro ko so imgs e) ev ->
  imgs = [image] /\ ro = mkRootOptions timeout.
Proof.
  intros H Hin.
  destruct (SignImage_inv _ _ _ _ _ _ _ _ _ _ H)
    as [[err [Hev _]]
       | [tr [[_ [Hev _]]
             | [tg [_ [[err [Hev _]] | [tok [e1 [e2 [Hev _]]]]]]]]]];
    subst ev; in_events.
  destruct legacySigned, bundleSigned; [| | | destruct e1]; simpl in Hin;
    in_events; split; reflexivity.
Qed.

End Dispatcher.

Section Reconciler.

Context {W : Type} `{Ext : Externals W}.

Variable signOptions : Flags.t.

Implicit Types (s : State W) (ev : list event).

(** An inspection signs nothing, authenticates nobody and allocates no
    [sync.OnceValues] function. *)
Lemma VerifySignature_quiet ctx image ids s r s' ev :
  VerifySignature ctx image ids s = (r, s', ev) ->
  signCalls ev = [] /\ authFlows ev = [] /\ onces s' = onces s.
Proof.
  intros H.
  destruct (VerifySignature_inv _ _ _ _ _ _ _ H)
    as [[err [_ [_ [Hev Hs]]]]
       | [[ref [err [w [_ [_ [_ [Hev Hs]]]]]]]
         | [ref [tr [w [l [s1 [ev1 [_ [_ [Hl Hrest]]]]]]]]]]].
  - subst. auto.
  - subst. auto.
  - destruct (verifyLegacySignature_events _ _ _ _ _ _ _ _ Hl) as [a [Hev1 Ho1]].
    destruct Hrest as [[err [_ [_ [Hev Hs]]]] | [b [ev2 [_ [Hb [Hev _]]]]]].
    + subst. auto.
    + destruct (verifyBundledSignature_events _ _ _ _ _ _ _ _ Hb) as [a' [Hev2 Ho2]].
      simpl in Ho1. rewrite Ho1 in Ho2. subst. auto.
Qed.

(** One turn of the loop of [signImages], by what the inspection returns
    and, if it comes to that, what the signing returns. *)
Lemma signImages_body_inv ctx image s r s' ev :
  signImages_body signOptions ctx image s = (r, s', ev) ->
  exists v s1 ev1,
    VerifySignature ctx image (identitiesOf signOptions) s = (v, s1, ev1)
    /\ match v with
       | inl err => r = Some err /\ ev = processingEvent image :: ev1 /\ s' = s1
       | inr st =>
           if LegacySignature st && BundleSignature st
           then r = None /\ ev = processingEvent image :: ev1 ++ [skippingEvent] /\ s' = s1
           else
             exists e evs,
               SignImage image (LegacySignature st) (BundleSignature st)
                 (Flags.OIDCProvider signOptions) (Flags.DeviceFlow signOptions)
                 (Flags.Timeout signOptions) s1 = (e, s', evs)
               /\ match e with
                  | Some err =>
                      r = Some (fmt_Errorf_w
                                  ("failed to sign image " +:+ image +:+ ": ") err)
                      /\ ev = processingEvent image :: ev1 ++ evs
                  | None =>
                      r = None /\ ev = processingEvent image :: ev1 ++ evs ++ [signedEvent image]
                  end
       end.
Proof.
  unfold signImages_body, identitiesOf, processingEvent, skippingEvent, signedEvent.
  unfold bind, Print, ret.
  destruct (VerifySignature ctx image _ s) as [[v s1] ev1].
  exists v, s1, ev1. split; [reflexivity |].
  destruct v as [err | st].
  - invert_pairs. rewrite app_nil_r. auto.
  - destruct (LegacySignature st && BundleSignature st).
    + invert_pairs. auto.
    + destruct (SignImage image _ _ _ _ _ s1) as [[e s2] evs].
      exists e, evs. destruct e; invert_pairs; simpl;
        rewrite ?app_nil_r; auto.
Qed.

(** The loop, one image at a time. *)
Lemma rangeImages_cons ctx image rest s :
  rangeImages signOptions ctx (image :: rest) s =
  let '(e, s1, ev1) := signImages_body signOptions ctx image s in
  match e with
  | Some err => (Some err, s1, ev1)
  | None =>
      let '(r, s2, ev2) := rangeImages signOptions ctx rest s1 in
      (r, s2, ev1 ++ ev2)
  end.
Proof.
  simpl. unfold bind at 1.
  destruct (signImages_body signOptions ctx image s) as [[[err |] s1] ev1].
  - unfold ret. rewrite app_nil_r. reflexivity.
  - reflexivity.
Qed.

(** The images are taken in the order of the list: a batch whose first
    part passes goes on with the rest from where the first part ended. *)
Lemma signImages_app pre post s s1 ev1 :
  signImages signOptions pre s = (None, s1, ev1) ->
  signImages signOptions (pre ++ post) s =
  let '(r, s2, ev2) := signImages signOptions post s1 in (r, s2, ev1 ++ ev2).
Proof.
  unfold signImages. revert s s1 ev1.
  induction pre as [| image rest IH]; intros s s1 ev1 H.
  - simpl in H. unfold ret in H. invert_pairs. simpl.
    destruct (rangeImages signOptions NotifyContext post s1) as [[r s2] ev2].
    reflexivity.
  - rewrite <- app_comm_cons. rewrite rangeImages_cons in *.
    destruct (signImages_body signOptions NotifyContext image s) as [[[err |] s0] ev0];
      [discriminate |].
    destruct (rangeImages signOptions NotifyContext rest s0) as [[r0 s2] ev2] eqn:Hr.
    invert_pairs. rewrite (IH _ _ _ Hr).
    destruct (rangeImages signOptions NotifyContext post s1) as [[r s3] ev3].
    rewrite app_assoc. reflexivity.
Qed.

(** A run that returns nil has gone through every image. *)
Lemma signImages_nil_split pre image post s s' ev :
  signImages signOptions (pre ++ image :: post) s = (None, s', ev) ->
  exists s1 ev1 s2 ev2 ev3,
    signImages signOptions pre s = (None, s1, ev1)
    /\ signImages_body signOptions NotifyContext image s1 = (None, s2, ev2)
    /\ signImages signOptions post s2 = (None, s', ev3)
    /\ ev = ev1 ++ ev2 ++ ev3.
Proof.
  unfold signImages. revert s s' ev.
  induction pre as [| i rest IH]; intros s s' ev H.
  - simpl app in H. rewrite rangeImages_cons in H.
    destruct (signImages_body signOptions NotifyContext image s)
      as [[[err |] s2] ev2] eqn:Hbody; [discriminate |].
    destruct (rangeImages signOptions NotifyContext post s2) as [[r s3] ev3] eqn:Hp.
    invert_pairs. exists s, [], s2, ev2, ev3.
    repeat split; try reflexivity; assumption.
  - rewrite <- app_comm_cons in H. rewrite rangeImages_cons in *.
    destruct (signImages_body signOptions NotifyContext i s) as [[[err |] s0] ev0];
      [discriminate |].
    destruct (rangeImages signOptions NotifyContext (rest ++ image :: post) s0)
      as [[r s3] ev3] eqn:Hr.
    invert_pairs.
    destruct (IH _ _ _ Hr) as [s1 [ev1 [s2 [ev2 [ev4 [Hpre [Hb [Hpost Hev]]]]]]]].
    rewrite Hpre. exists s1, (ev0 ++ ev1), s2, ev2, ev4.
    repeat split; auto. subst. rewrite app_assoc. reflexivity.
Qed.

(** C4: an image whose inspection reports both formats present is
    skipped.  Its turn of the loop consists of the "processing" line, the
    calls of the inspection and the "skipping" line: no signing call, no
    authentication flow, no [sync.OnceValues] function allocated; the
    loop then goes on with the next image from the state the inspection
    left. *)
Theorem fully_signed_image_is_skipped :
  forall image rest s st s1 ev1,
    VerifySignature NotifyContext image (identitiesOf signOptions) s
    = (inr st, s1, ev1) ->
    LegacySignature st = true ->
    BundleSignature st = true ->
    let turn := processingEvent image :: ev1 ++ [skippingEvent] in
    signImages_body signOptions NotifyContext image s = (None, s1, turn)
    /\ signCalls turn = []
    /\ authFlows turn = []
    /\ onces s1 = onces s
    /\ signImages signOptions (image :: rest) s =
       let '(r, s2, ev2) := signImages signOptions rest s1 in
       (r, s2, turn ++ ev2).
Proof.
  intros image rest s st s1 ev1 Hv Hl Hb turn.
  assert (Hbody : signImages_body signOptions NotifyContext image s = (None, s1, turn)).
  { unfold signImages_body, bind, Print, ret.
    unfold identitiesOf in Hv. rewrite Hv, Hl, Hb. reflexivity. }
  destruct (VerifySignature_quiet _ _ _ _ _ _ _ Hv) as [Hsign [Hauth Honces]].
  split; [exact Hbody |].
  split; [| split; [| split; [exact Honces |]]].
  - unfold turn, signCalls in *. simpl. rewrite List.filter_app, Hsign. reflexivity.
  - unfold turn, authFlows in *. simpl. rewrite List.filter_app, Hauth. reflexivity.
  - unfold signImages. rewrite rangeImages_cons, Hbody. reflexivity.
Qed.

(** C5: the batch is processed in the order of the list and stops at the
    first failure.  If the images before one pass and the turn of that
    image returns an error, the run returns that very error, ends in the
    state and with the record of that turn, and is the same whatever
    images follow: none of them is touched.  A run returns nil only if
    the turn of every image returned nil, each started where the one
    before ended.  A turn returns nil only for an image that was skipped
    or whose signing returned nil, and the error of a turn is the error of
    its inspection or the wrapped error of its signing. *)
Theorem signImages_in_order_fail_fast :
  (forall pre image post s s1 ev1 err s2 ev2,
      signImages signOptions pre s = (None, s1, ev1) ->
      signImages_body signOptions NotifyContext image s1 = (Some err, s2, ev2) ->
      signImages signOptions (pre ++ image :: post) s = (Some err, s2, ev1 ++ ev2))
  /\ (forall pre image post s s' ev,
        signImages signOptions (pre ++ image :: post) s = (None, s', ev) ->
        exists s1 ev1 s2 ev2 ev3,
          signImages signOptions pre s = (None, s1, ev1)
          /\ signImages_body signOptions NotifyContext image s1 = (None, s2, ev2)
          /\ signImages signOptions post s2 = (None, s', ev3)
          /\ ev = ev1 ++ ev2 ++ ev3)
  /\ (forall image s r s' ev,
        signImages_body signOptions NotifyContext image s = (r, s', ev) ->
        exists v s1 ev1,
          VerifySignature NotifyContext image (identitiesOf signOptions) s
          = (v, s1, ev1)
          /\ match v with
             | inl err => r = Some err /\ ev = processingEvent image :: ev1 /\ s' = s1
             | inr st =>
                 if LegacySignature st && BundleSignature st
                 then r = None
                      /\ ev = processingEvent image :: ev1 ++ [skippingEvent]
                      /\ s' = s1
                 else
                   exists e evs,
                     SignImage image (LegacySignature st) (BundleSignature st)
                       (Flags.OIDCProvider signOptions)
                       (Flags.DeviceFlow signOptions)
                       (Flags.Timeout signOptions) s1 = (e, s', evs)
                     /\ match e with
                        | Some err =>
                            r = Some (fmt_Errorf_w
                                        ("failed to sign image " +:+ image +:+ ": ")
                                        err)
                            /\ ev = processingEvent image :: ev1 ++ evs
                        | None =>
                            r = None
                            /\ ev = processingEvent image :: ev1 ++ evs
                                      ++ [signedEvent image]
                        end
             end).
Proof.
  split; [| split].
  - intros pre image post s s1 ev1 err s2 ev2 Hpre Hbody.
    rewrite (signImages_app _ _ _ _ _ Hpre).
    unfold signImages. rewrite rangeImages_cons, Hbody. reflexivity.
  - intros. apply signImages_nil_split. assumption.
  - intros. apply signImages_body_inv. assumption.
Qed.

(** *** Further properties of the batch *)

Lemma no_signCalls_In ev :
  signCalls ev = [] ->
  forall ro ko so imgs e, ~ In (EvSignCmd ro ko so imgs e) ev.
Proof.
  intros H ro ko so imgs e Hin.
  assert (Hf : In (EvSignCmd ro ko so imgs e) (signCalls ev)).
  { apply List.filter_In. split; [exact Hin | reflexivity]. }
  rewrite H in Hf. destruct Hf.
Qed.

(** A signing call in the record of a turn belongs to the run of
    [SignImage] of that turn. *)
Lemma turn_sign_call ctx image s r s' ev ro ko so imgs e :
  signImages_body signOptions ctx image s = (r, s', ev) ->
  In (EvSignCmd ro ko so imgs e) ev ->
  exists st s1 r1 evs before after,
    SignImage image (LegacySignature st) (BundleSignature st)
      (Flags.OIDCProvider signOptions) (Flags.DeviceFlow signOptions)
      (Flags.Timeout signOptions) s1 = (r1, s', evs)
    /\ In (EvSignCmd ro ko so imgs e) evs
    /\ ev = before ++ evs ++ after
    /\ match r1 with
       | Some err =>
           after = []
           /\ r = Some (fmt_Errorf_w ("failed to sign image " +:+ image +:+ ": ") err)
       | None => after = [signedEvent image] /\ r = None
       end.
Proof.
  intros H Hin.
  destruct (signImages_body_inv _ _ _ _ _ _ H) as [v [s1 [ev1 [Hv Hcase]]]].
  destruct (VerifySignature_quiet _ _ _ _ _ _ _ Hv) as [Hsign _].
  pose proof (no_signCalls_In _ Hsign ro ko so imgs e) as Hno.
  destruct v as [err | st].
  - destruct Hcase as [_ [Hev _]]. subst ev.
    destruct Hin as [Hin | Hin]; [discriminate | contradiction].
  - destruct (LegacySignature st && BundleSignature st).
    + destruct Hcase as [_ [Hev _]]. subst ev.
      destruct Hin as [Hin | Hin]; [discriminate |].
      apply in_app_or in Hin. destruct Hin as [Hin | Hin]; [contradiction |].
      in_events.
    + destruct Hcase as [r1 [evs [Hs Hcase]]].
      exists st, s1, r1, evs, (processingEvent image :: ev1).
      destruct r1 as [err |]; destruct Hcase as [Hr Hev]; subst ev.
      * exists []. split; [exact Hs |].
        destruct Hin as [Hin | Hin]; [discriminate |].
        apply in_app_or in Hin. destruct Hin as [Hin | Hin]; [contradiction |].
        split; [exact Hin |]. rewrite app_nil_r. auto.
      * exists [signedEvent image]. split; [exact Hs |].
        destruct Hin as [Hin | Hin]; [discriminate |].
        apply in_app_or in Hin. destruct Hin as [Hin | Hin]; [contradiction |].
        apply in_app_or in Hin. destruct Hin as [Hin | Hin]; [| in_events].
        split; [exact Hin |]. auto.
Qed.

(** X1: an image reference that does not parse stops the batch before
    any external call is made for that image: the run returns the parse
    error, its record ends with the "processing" line of that image, its
    state is the one the images before left, and the images after it are
    not touched. *)
Theorem invalid_reference_stops_the_batch :
  forall pre image post s s1 ev1 err,
    signImages signOptions pre s = (None, s1, ev1) ->
    name_ParseReference image = inl err ->
    signImages signOptions (pre ++ image :: post) s
    = (Some (fmt_Errorf_w
               ("error parsing image reference for " +:+ image +:+ ": ") err),
       s1, ev1 ++ [processingEvent image]).
Proof.
  intros pre image post s s1 ev1 err Hpre Hp.
  rewrite (signImages_app _ _ _ _ _ Hpre).
  unfold signImages. rewrite rangeImages_cons.
  unfold signImages_body, bind, Print, VerifySignature. rewrite Hp.
  reflexivity.
Qed.

(** X9: a signing call that fails is the last external call of a run of
    [signImages]: the record ends with it, no later image is processed,
    and the run returns the error of the call under the prefix of the
    format that failed and the prefix of the image, so that [errors.As]
    still finds the error of the backend in what is returned. *)
Theorem failed_signing_ends_the_run :
  forall images s r s' ev ro ko so imgs e,
    signImages signOptions images s = (r, s', ev) ->
    In (EvSignCmd ro ko so imgs (Some e)) ev ->
    exists image before err,
      In image images
      /\ imgs = [image]
      /\ ev = before ++ [EvSignCmd ro ko so imgs (Some e)]
      /\ r = Some err
      /\ err = fmt_Errorf_w ("failed to sign image " +:+ image +:+ ": ")
                 (fmt_Errorf_w
                    (signingErrorPrefix (KeyOpts.NewBundleFormat ko) image) e)
      /\ errors_As (typeOf e) err = true.
Proof.
  unfold signImages.
  induction images as [| image rest IH]; intros s r s' ev ro ko so imgs e H Hin.
  - simpl in H. unfold ret in H. invert_pairs. destruct Hin.
  - rewrite rangeImages_cons in H.
    destruct (signImages_body signOptions NotifyContext image s)
      as [[r0 s0] ev0] eqn:Hbody.
    assert (Hturn : In (EvSignCmd ro ko so imgs (Some e)) ev0 ->
                    imgs = [image]
                    /\ (exists before, ev0 = before ++ [EvSignCmd ro ko so imgs (Some e)])
                    /\ r0 = Some (fmt_Errorf_w
                                    ("failed to sign image " +:+ image +:+ ": ")
                                    (fmt_Errorf_w
                                       (signingErrorPrefix
                                          (KeyOpts.NewBundleFormat ko) image) e))).
    { intros Hin0.
      destruct (turn_sign_call _ _ _ _ _ _ _ _ _ _ _ Hbody Hin0)
        as [st [s1 [r1 [evs [before [after [Hs [Hine [Hev Hr]]]]]]]]].
      destruct (SignImage_failed_call _ _ _ _ _ _ _ _ _ _ _ _ _ _ _ Hs Hine)
        as [Himgs [[before' Hevs] Hr1]].
      subst r1. destruct Hr as [Hafter Hr]. subst.
      split; [reflexivity |]. split; [| reflexivity].
      exists (before ++ before'). rewrite app_nil_r, app_assoc. reflexivity. }
    destruct r0 as [err0 |].
    + invert_pairs. destruct (Hturn Hin) as [Himgs [[before Hev] Hr]].
      inversion Hr; subst.
      do 3 eexists. split; [left; reflexivity |].
      do 4 (split; [reflexivity |]).
      apply errors_As_wrap, errors_As_wrap, errors_As_self.
    + destruct (rangeImages signOptions NotifyContext rest s0)
        as [[r1 s2] ev2] eqn:Hrest.
      invert_pairs. apply in_app_or in Hin. destruct Hin as [Hin | Hin].
      * destruct (Hturn Hin) as [_ [_ Hr]]. discriminate Hr.
      * destruct (IH _ _ _ _ _ _ _ _ _ Hrest Hin)
          as [image' [before [err [Him [Himgs [Hev [Hr [Herr Has]]]]]]]].
        exists image', (ev0 ++ before), err.
        repeat split; auto.
        -- right; exact Him.
        -- rewrite Hev, app_assoc. reflexivity.
Qed.

(** X10: a run of [signImages] signs nothing but the images of the
    batch, each signing call for one image and under the timeout of the
    flags; it makes at most two signing calls and runs at most one
    authentication flow for each image of the batch. *)
Theorem signImages_signs_only_the_batch :
  forall images s r s' ev,
    signImages signOptions images s = (r, s', ev) ->
    (forall ro ko so imgs e,
        In (EvSignCmd ro ko so imgs e) ev ->
        exists image,
          In image images
          /\ imgs = [image]
          /\ ro = mkRootOptions (Flags.Timeout signOptions))
    /\ length (signCalls ev) <= 2 * length images
    /\ length (authFlows ev) <= length images.
Proof.
  unfold signImages.
  induction images as [| image rest IH]; intros s r s' ev H.
  - simpl in H. unfold ret in H. invert_pairs. simpl.
    split; [intros ? ? ? ? ? [] | split; lia].
  - rewrite rangeImages_cons in H.
    destruct (signImages_body signOptions NotifyContext image s)
      as [[r0 s0] ev0] eqn:Hbody.
    assert (Hturn : (forall ro ko so imgs e,
                        In (EvSignCmd ro ko so imgs e) ev0 ->
                        imgs = [image]
                        /\ ro = mkRootOptions (Flags.Timeout signOptions))
                    /\ length (signCalls ev0) <= 2
                    /\ length (authFlows ev0) <= 1).
    { split.
      - intros ro ko so imgs e Hin0.
        destruct (turn_sign_call _ _ _ _ _ _ _ _ _ _ _ Hbody Hin0)
          as [st [s1 [r1 [evs [before [after [Hs [Hine _]]]]]]]].
        eapply SignImage_call_image; eassumption.
      - destruct (signImages_body_inv _ _ _ _ _ _ Hbody)
          as [v [s1 [ev1 [Hv Hcase]]]].
        destruct (VerifySignature_quiet _ _ _ _ _ _ _ Hv) as [Hsign [Hauth _]].
        unfold signCalls, authFlows in *.
        destruct v as [err | st].
        + destruct Hcase as [_ [Hev _]]. subst ev0. simpl.
          rewrite Hsign, Hauth. simpl. lia.
        + destruct (LegacySignature st && BundleSignature st).
          * destruct Hcase as [_ [Hev _]]. subst ev0. simpl.
            rewrite !List.filter_app, Hsign, Hauth. simpl. lia.
          * destruct Hcase as [r1 [evs [Hs Hcase]]].
            destruct (SignImage_bounds _ _ _ _ _ _ _ _ _ _ Hs) as [Hb1 Hb2].
            unfold signCalls, authFlows in *.
            destruct r1; destruct Hcase as [_ Hev]; subst ev0; simpl;
              rewrite !List.filter_app, Hsign, Hauth; simpl;
              rewrite ?length_app; simpl; lia. }
    destruct Hturn as [Hcalls [Hb1 Hb2]].
    destruct r0 as [err0 |].
    + invert_pairs. split; [| simpl; split; lia].
      intros ro ko so imgs e Hin.
      destruct (Hcalls _ _ _ _ _ Hin) as [Hi Hro].
      exists image. split; [left; reflexivity | auto].
    + destruct (rangeImages signOptions NotifyContext rest s0)
        as [[r1 s2] ev2] eqn:Hrest.
      invert_pairs. destruct (IH _ _ _ _ Hrest) as [Hcalls' [Hb1' Hb2']].
      split.
      * intros ro ko so imgs e Hin. apply in_app_or in Hin.
        destruct Hin as [Hin | Hin].
        -- destruct (Hcalls _ _ _ _ _ Hin) as [Hi Hro].
           exists image. split; [left; reflexivity | auto].
        -- destruct (Hcalls' _ _ _ _ _ Hin) as [image' [Him Hrest']].
           exists image'. split; [right; exact Him | exact Hrest'].
      * unfold signCalls, authFlows in *.
        rewrite !List.filter_app, !length_app. simpl length. lia.
Qed.

End Reconciler.

(** ** The properties on runs in the small world *)

Lemma goodLegacy_passes : legacyPasses (W := Sim.world) Sim.goodLegacy true.
Proof.
  apply legacy_present. constructor; [| constructor].
  eexists _, _. repeat split; reflexivity.
Defined.

Lemma notFoundLegacy_passes : legacyPasses (W := Sim.world) Sim.notFoundLegacy false.
Proof. apply legacy_absent. reflexivity. Defined.

Lemma mistypedLegacy_is_not_well_formed :
  ~ Forall (legacyWellFormed (W := Sim.world))
      [Sim.legacySignatureOf "atomic container signature"].
Proof.
  intros H. inversion H as [| sig rest Hwf _]; subst.
  destruct Hwf as [bs [info [Hp [Hu Ht]]]].
  simpl in Hp. inversion Hp; subst; clear Hp.
  vm_compute in Hu. inversion Hu; subst; clear Hu.
  vm_compute in Ht. discriminate Ht.
Defined.

Lemma mistypedBundled_is_not_well_formed :
  ~ Forall (bundledWellFormed (W := Sim.world))
      [Sim.bundledSignatureOf Sim.slsaStatement].
Proof.
  intros H. inversion H as [| sig rest Hwf _]; subst.
  destruct Hwf as [bs [env [dec [st [Hp [Hu [Hd [Hs Ht]]]]]]]].
  simpl in Hp. inversion Hp; subst; clear Hp.
  vm_compute in Hu. inversion Hu; subst; clear Hu.
  vm_compute in Hd. inversion Hd; subst; clear Hd.
  vm_compute in Hs. inversion Hs; subst; clear Hs.
  vm_compute in Ht. discriminate Ht.
Defined.

Lemma found_but_unverified_fails_witness :
  fst (fst (VerifySignature NotifyContext Sim.imageA (identitiesOf Sim.googleFlags)
              (Sim.start (Sim.registryOf Sim.unverifiedLegacy Sim.goodBundled) [])))
  = inl (fmt_Errorf_w "error verifying legacy signature: "
           (fmt_Errorf "legacy signatures found but verification failed"))
  /\ fst (fst (VerifySignature NotifyContext Sim.imageA (identitiesOf Sim.googleFlags)
                 (Sim.start (Sim.registryOf Sim.goodLegacy Sim.unverifiedBundled) [])))
     = inl (fmt_Errorf_w "error verifying bundled signature: "
              (fmt_Errorf "bundled signatures found but verification failed")).
Proof.
  split.
  - destruct (proj1 (@found_but_unverified_fails Sim.world Sim.externals
                       NotifyContext Sim.imageA (identitiesOf Sim.googleFlags)
                       (Sim.start (Sim.registryOf Sim.unverifiedLegacy Sim.goodBundled) [])
                       (mkReference Sim.imageA) (mkTrustedMaterial 0) _
                       eq_refl eq_refl)
                _ _ eq_refl) as [_ H].
    rewrite H. reflexivity.
  - destruct (proj2 (@found_but_unverified_fails Sim.world Sim.externals
                       NotifyContext Sim.imageA (identitiesOf Sim.googleFlags)
                       (Sim.start (Sim.registryOf Sim.goodLegacy Sim.unverifiedBundled) [])
                       (mkReference Sim.imageA) (mkTrustedMaterial 0) _
                       eq_refl eq_refl)
                _ _ _ _ _ eq_refl goodLegacy_passes eq_refl) as [_ H].
    rewrite H. reflexivity.
Defined.

Lemma malformed_signature_fails_witness :
  (exists err,
      MalformedSignatureError (W := Sim.world) err
      /\ fst (fst (VerifySignature NotifyContext Sim.imageA
                     (identitiesOf Sim.googleFlags)
                     (Sim.start (Sim.registryOf Sim.mistypedLegacy Sim.goodBundled) [])))
         = inl (fmt_Errorf_w "error verifying legacy signature: " err))
  /\ (exists err,
         MalformedSignatureError (W := Sim.world) err
         /\ fst (fst (VerifySignature NotifyContext Sim.imageA
                        (identitiesOf Sim.googleFlags)
                        (Sim.start (Sim.registryOf Sim.goodLegacy Sim.mistypedBundled)
                           [])))
            = inl (fmt_Errorf_w "error verifying bundled signature: " err)).
Proof.
  split.
  - destruct (proj2 (proj1 (@malformed_signature_fails Sim.world Sim.externals
                       NotifyContext Sim.imageA (identitiesOf Sim.googleFlags)
                       (Sim.start (Sim.registryOf Sim.mistypedLegacy Sim.goodBundled) [])
                       (mkReference Sim.imageA) (mkTrustedMaterial 0) _
                       eq_refl eq_refl)
                _ _ eq_refl) mistypedLegacy_is_not_well_formed)
      as [err [Hm [_ H]]].
    exists err. split; [exact Hm |]. rewrite H. reflexivity.
  - destruct (proj2 (proj1 (proj2 (@malformed_signature_fails Sim.world Sim.externals
                       NotifyContext Sim.imageA (identitiesOf Sim.googleFlags)
                       (Sim.start (Sim.registryOf Sim.goodLegacy Sim.mistypedBundled) [])
                       (mkReference Sim.imageA) (mkTrustedMaterial 0) _
                       eq_refl eq_refl))
                _ _ _ _ _ eq_refl goodLegacy_passes eq_refl)
                mistypedBundled_is_not_well_formed)
      as [err [Hm [_ H]]].
    exists err. split; [exact Hm |]. rewrite H. reflexivity.
Defined.

Lemma absent_format_is_not_an_error_witness :
  fst (fst (VerifySignature NotifyContext Sim.imageA (identitiesOf Sim.googleFlags)
              (Sim.start (Sim.registryOf Sim.notFoundLegacy Sim.goodBundled) [])))
  = inr (mkSignatureStatus false true)
  /\ fst (fst (VerifySignature NotifyContext Sim.imageA (identitiesOf Sim.googleFlags)
                 (Sim.start (Sim.registryOf Sim.goodLegacy Sim.notFoundBundled) [])))
     = inr (mkSignatureStatus true false).
Proof.
  split.
  - destruct (proj1 (@absent_format_is_not_an_error Sim.world Sim.externals
                       NotifyContext Sim.imageA (identitiesOf Sim.googleFlags)
                       (Sim.start (Sim.registryOf Sim.notFoundLegacy Sim.goodBundled) [])
                       (mkReference Sim.imageA) (mkTrustedMaterial 0) _
                       eq_refl eq_refl)
                _ _ _ _ eq_refl eq_refl) as [_ H].
    rewrite (H true None _ _ eq_refl). reflexivity.
  - destruct (proj2 (@absent_format_is_not_an_error Sim.world Sim.externals
                       NotifyContext Sim.imageA (identitiesOf Sim.googleFlags)
                       (Sim.start (Sim.registryOf Sim.goodLegacy Sim.notFoundBundled) [])
                       (mkReference Sim.imageA) (mkTrustedMaterial 0) _
                       eq_refl eq_refl)
                _ _ _ _ _ _ _ eq_refl goodLegacy_passes eq_refl eq_refl) as [_ H].
    rewrite H. reflexivity.
Defined.

Lemma fully_signed_image_is_skipped_witness :
  exists s1 turn,
    signImages_body Sim.googleFlags NotifyContext Sim.imageA Sim.batchStart
    = (None, s1, turn)
    /\ signCalls turn = []
    /\ authFlows turn = []
    /\ onces s1 = onces Sim.batchStart.
Proof.
  destruct (@fully_signed_image_is_skipped Sim.world Sim.externals Sim.googleFlags
              Sim.imageA [Sim.imageB; Sim.imageC; Sim.imageD] Sim.batchStart
              _ _ _ eq_refl eq_refl eq_refl)
    as [Hbody [Hsign [Hauth [Honces _]]]].
  do 2 eexists. split; [exact Hbody |]. auto.
Defined.

Lemma signImages_in_order_fail_fast_witness :
  signImages Sim.googleFlags ([Sim.imageA; Sim.imageB] ++ Sim.imageC :: [Sim.imageD])
    Sim.batchStart
  = (Some Sim.signingFailed, snd (fst Sim.batchFailingTurn),
     snd Sim.batchPrefixRun ++ snd Sim.batchFailingTurn).
Proof.
  apply (proj1 (@signImages_in_order_fail_fast Sim.world Sim.externals
                  Sim.googleFlags)
           [Sim.imageA; Sim.imageB] Sim.imageC [Sim.imageD] Sim.batchStart
           (snd (fst Sim.batchPrefixRun))).
  - vm_compute. reflexivity.
  - vm_compute. reflexivity.
Defined.


Lemma SignImage_fully_signed_still_authenticates_witness :
  SignImage Sim.imageA true true "google" false 300000000000 Sim.batchStart
  = (None,
     mkState (Sim.mkWorld Sim.batchRegistry [Sim.imageC] 1)
       [mkOnce "google" false (Some ("id-token", None))],
     [EvTrustedRoot (inr (mkTrustedMaterial 0));
      EvOIDConnect "https://oauth2.sigstore.dev/auth" "sigstore" "" ""
        PublicInstanceGoogleIDTokenGetter
        (inr (mkOIDCIDToken "id-token" "releaser@siderolabs.com"))]).
Proof.
  exact (proj1 (proj2 (@SignImage_fully_signed_still_authenticates
                         Sim.world Sim.externals
                         Sim.imageA "google" false 300000000000 Sim.batchStart)
                  (mkTrustedMaterial 0) _ eq_refl)
           PublicInstanceGoogleIDTokenGetter _ _ eq_refl eq_refl).
Defined.

Lemma device_flow_overrides_supported_providers_witness :
  exists a w,
    oauthflow_OIDConnect DefaultOIDCIssuerURL SigstoreOIDCClientID "" ""
      (NewDeviceFlowTokenGetterForIssuer DefaultOIDCIssuerURL)
      (world Sim.batchStart) = (a, w)
    /\ getToken_func "github" true Sim.batchStart =
       (match a with
        | inl err => ("", Some err)
        | inr tok => (RawString tok, None)
        end,
        mkState w (onces Sim.batchStart),
        [EvOIDConnect DefaultOIDCIssuerURL SigstoreOIDCClientID "" ""
           (NewDeviceFlowTokenGetterForIssuer DefaultOIDCIssuerURL) a]).
Proof.
  apply (proj1 (@device_flow_overrides_supported_providers Sim.world Sim.externals
                  "github" Sim.batchStart)).
  in_list.
Defined.

Lemma yahoo_is_not_supported : ~ In "yahoo" supportedProviders.
Proof.
  simpl. intros H. repeat (destruct H as [H | H]; [discriminate H |]). exact H.
Defined.

Lemma unsupported_provider_fails_and_is_cached_witness :
  getToken_func "yahoo" false Sim.batchStart
  = (("", Some (fmt_Errorf ("unsupported provider: " +:+ "yahoo"))), Sim.batchStart, []).
Proof.
  apply (proj1 (@unsupported_provider_fails_and_is_cached Sim.world Sim.externals
                  "yahoo" false Sim.batchStart yahoo_is_not_supported)).
Defined.

(** C7, as stated, fails: with [deviceFlow] true and the provider "yahoo"
    the function literal returns the unsupported-provider error and no
    authentication flow runs, so no device-code token getter is selected. *)
Lemma device_flow_does_not_override_unknown_provider :
  let run := getToken_func "yahoo" true (Sim.start [] []) in
  fst (fst run) = ("", Some (fmt_Errorf "unsupported provider: yahoo"))
  /\ existsb isDeviceFlow (snd run) = false
  /\ snd run = [].
Proof. repeat split. Qed.

(** C1 on the code: a batch of two images whose references parse and that
    both need signing, with the same provider and flow, runs two
    authentication flows, one per image, and leaves two [sync.OnceValues]
    functions behind: the token of the first image is not reused for the
    second. *)
Theorem batch_of_two_authenticates_twice :
  let '(r, s, ev) :=
    signImages Sim.googleFlags
      ["ghcr.io/siderolabs/installer:v1.7.0"; "ghcr.io/siderolabs/kubelet:v1.30.0"]
      (Sim.start [] []) in
  r = None
  /\ length (authFlows ev) = 2
  /\ length (signCalls ev) = 4
  /\ Sim.issued (world s) = 2
  /\ onces s = [mkOnce "google" false (Some ("id-token", None));
                mkOnce "google" false (Some ("id-token", None))].
Proof. vm_compute. repeat split. Qed.

(** ** The further properties on runs in the small world *)

Lemma invalid_reference_stops_the_batch_witness :
  signImages Sim.googleFlags ([Sim.imageA] ++ "" :: [Sim.imageB]) Sim.batchStart
  = (Some (fmt_Errorf_w ("error parsing image reference for " +:+ "" +:+ ": ")
             (foreignError "*name.ErrBadName" "could not parse reference: ")),
     snd (fst Sim.batchFirstRun),
     snd Sim.batchFirstRun ++ [processingEvent ""]).
Proof.
  apply (@invalid_reference_stops_the_batch Sim.world Sim.externals Sim.googleFlags
           [Sim.imageA] "" [Sim.imageB] Sim.batchStart
           (snd (fst Sim.batchFirstRun)) (snd Sim.batchFirstRun)).
  - vm_compute. reflexivity.
  - reflexivity.
Defined.

Lemma VerifySignature_call_sequence_witness :
  exists r s' ev,
    VerifySignature NotifyContext Sim.imageA (identitiesOf Sim.googleFlags)
      (Sim.start (Sim.registryOf Sim.refused Sim.goodBundled) [])
    = (r, s', ev)
    /\ length ev = 2.
Proof.
  do 3 eexists. split; [reflexivity |].
  pose proof (@VerifySignature_call_sequence Sim.world Sim.externals
                NotifyContext Sim.imageA (identitiesOf Sim.googleFlags)
                (Sim.start (Sim.registryOf Sim.refused Sim.goodBundled) [])
                _ _ _ eq_refl) as H.
  change (name_ParseReference Sim.imageA) with (Sim.parseReference Sim.imageA) in H.
  vm_compute Sim.parseReference in H.
  destruct H as [rr [w0 [Hr H]]].
  vm_compute in Hr. inversion Hr; subst rr w0; clear Hr.
  destruct H as [la [w1 [Ha [[_ [Hev _]] | [f [ba [w2 [Hpass _]]]]]]]].
  - reflexivity.
  - vm_compute in Ha. inversion Ha; subst la w1; clear Ha.
    inversion Hpass as [sigs bv err Hv |]; subst.
    vm_compute in Hv. discriminate Hv.
Defined.

Lemma other_backend_errors_propagate_witness :
  fst (fst (VerifySignature NotifyContext Sim.imageA (identitiesOf Sim.googleFlags)
              (Sim.start (Sim.registryOf Sim.refused Sim.goodBundled) [])))
  = inl (fmt_Errorf_w "error verifying legacy signature: " Sim.unauthorized)
  /\ fst (fst (VerifySignature NotifyContext Sim.imageA (identitiesOf Sim.googleFlags)
                 (Sim.start (Sim.registryOf Sim.goodLegacy Sim.refused) [])))
     = inl (fmt_Errorf_w "error verifying bundled signature: " Sim.unauthorized).
Proof.
  split.
  - destruct (proj1 (@other_backend_errors_propagate Sim.world Sim.externals
                       NotifyContext Sim.imageA (identitiesOf Sim.googleFlags)
                       (Sim.start (Sim.registryOf Sim.refused Sim.goodBundled) [])
                       (mkReference Sim.imageA) (mkTrustedMaterial 0) _
                       eq_refl eq_refl)
                _ _ _ _ eq_refl eq_refl) as [_ H].
    rewrite H. reflexivity.
  - destruct (proj2 (@other_backend_errors_propagate Sim.world Sim.externals
                       NotifyContext Sim.imageA (identitiesOf Sim.googleFlags)
                       (Sim.start (Sim.registryOf Sim.goodLegacy Sim.refused) [])
                       (mkReference Sim.imageA) (mkTrustedMaterial 0) _
                       eq_refl eq_refl)
                _ _ _ _ _ _ _ eq_refl goodLegacy_passes eq_refl eq_refl) as [_ H].
    rewrite H. reflexivity.
Defined.

Lemma verified_empty_set_is_present_witness :
  fst (fst (VerifySignature NotifyContext Sim.imageA (identitiesOf Sim.googleFlags)
              (Sim.start (Sim.registryOf Sim.emptyVerified Sim.notFoundBundled) [])))
  = inr (mkSignatureStatus true false)
  /\ fst (fst (VerifySignature NotifyContext Sim.imageA (identitiesOf Sim.googleFlags)
                 (Sim.start (Sim.registryOf Sim.notFoundLegacy Sim.emptyVerified) [])))
     = inr (mkSignatureStatus false true).
Proof.
  split.
  - destruct (proj1 (@verified_empty_set_is_present Sim.world Sim.externals
                       NotifyContext Sim.imageA (identitiesOf Sim.googleFlags)
                       (Sim.start (Sim.registryOf Sim.emptyVerified Sim.notFoundBundled)
                          [])
                       (mkReference Sim.imageA) (mkTrustedMaterial 0) _
                       eq_refl eq_refl)
                _ eq_refl) as [_ H].
    rewrite (H false None _ _ eq_refl). reflexivity.
  - destruct (proj2 (@verified_empty_set_is_present Sim.world Sim.externals
                       NotifyContext Sim.imageA (identitiesOf Sim.googleFlags)
                       (Sim.start (Sim.registryOf Sim.notFoundLegacy Sim.emptyVerified)
                          [])
                       (mkReference Sim.imageA) (mkTrustedMaterial 0) _
                       eq_refl eq_refl)
                _ _ _ _ eq_refl notFoundLegacy_passes eq_refl) as [_ H].
    rewrite H. reflexivity.
Defined.

Lemma absent_only_when_not_found_witness :
  exists ctx0 ref0 co sigs bv err,
    In (EvVerifyImageSignatures ctx0 ref0 co (sigs, bv, Some err))
       (snd (VerifySignature NotifyContext Sim.imageA
               (identitiesOf Sim.googleFlags) (Sim.start [] [])))
    /\ validateNoSignatureFound err = true.
Proof.
  eapply (proj1 (@absent_only_when_not_found Sim.world Sim.externals
                   NotifyContext Sim.imageA
                   (identitiesOf Sim.googleFlags) (Sim.start [] [])
                   (mkSignatureStatus false false) _ _ eq_refl)).
  reflexivity.
Defined.

Lemma SignImage_signs_with_its_own_token_witness :
  In SimCalls.bundledCallOfB
     (snd (SignImage Sim.imageB true false "google" false 300000000000
             Sim.batchStart))
  /\ [Sim.imageB] = [Sim.imageB]
  /\ mkRootOptions 300000000000 = mkRootOptions 300000000000.
Proof.
  assert (Hin : In SimCalls.bundledCallOfB
                  (snd (SignImage Sim.imageB true false "google" false 300000000000
                          Sim.batchStart))).
  { in_list. }
  split; [exact Hin |].
  destruct (@SignImage_signs_with_its_own_token Sim.world Sim.externals
              Sim.imageB true false "google" false 300000000000 Sim.batchStart
              _ _ _ eq_refl _ _ _ _ _ Hin) as [H1 [H2 _]].
  split; assumption.
Defined.

Lemma SignImage_rejects_unsupported_provider_witness :
  exists rr,
    snd (SignImage Sim.imageB true false "yahoo" true 300000000000 Sim.batchStart)
    = [EvTrustedRoot rr].
Proof.
  apply (proj1 (@SignImage_rejects_unsupported_provider Sim.world Sim.externals
                  Sim.imageB true false "yahoo" true 300000000000 Sim.batchStart
                  _ _ _ yahoo_is_not_supported eq_refl)).
Defined.

Lemma getToken_function_runs_once_witness :
  exists f s0 r1 s1 ev1,
    getToken "google" false Sim.batchStart = (f, s0, [])
    /\ callOnce f s0 = (r1, s1, ev1)
    /\ length (authFlows ev1) <= 1
    /\ callOnce f s1 = (r1, s1, []).
Proof.
  do 5 eexists. split; [reflexivity |]. split; [reflexivity |].
  destruct (@getToken_function_runs_once Sim.world Sim.externals
              "google" false Sim.batchStart _ _ _ _ _ _ eq_refl eq_refl)
    as [_ [_ [_ [_ [Hb [Hc _]]]]]].
  split; assumption.
Defined.

Lemma batchRun_is_the_run :
  signImages Sim.googleFlags Sim.batch Sim.batchStart
  = (fst (fst Sim.batchRun), snd (fst Sim.batchRun), snd Sim.batchRun).
Proof. vm_compute. reflexivity. Defined.

Lemma failedCallOfC_in_batchRun : In SimCalls.failedCallOfC (snd Sim.batchRun).
Proof. vm_compute. repeat first [left; reflexivity | right]. Defined.

Lemma failed_signing_ends_the_run_witness :
  exists before, snd Sim.batchRun = before ++ [SimCalls.failedCallOfC].
Proof.
  destruct (@failed_signing_ends_the_run Sim.world Sim.externals Sim.googleFlags
              Sim.batch Sim.batchStart _ _ _ _ _ _ _ _
              batchRun_is_the_run failedCallOfC_in_batchRun)
    as [image [before [err [_ [_ [Hev _]]]]]].
  exists before. exact Hev.
Defined.

Lemma signImages_signs_only_the_batch_witness :
  length (signCalls (snd Sim.batchRun)) <= 2 * length Sim.batch
  /\ length (authFlows (snd Sim.batchRun)) <= length Sim.batch.
Proof.
  apply (proj2 (@signImages_signs_only_the_batch Sim.world Sim.externals
                  Sim.googleFlags Sim.batch Sim.batchStart _ _ _
                  batchRun_is_the_run)).
Defined.
